(** * Row mutation layer of the table editor

    A shallow embedding of the write functions of [addRowAtom],
    [deleteRowAtom], [bulkAddRowsAtom] and [updateFieldAtom]
    (the table-scope row atoms) and of the filter-selection effect of the
    [Filters] component (src/components/TableHeader/Filters/index.tsx).

    Conventions of the embedding:
    - a JavaScript object is a finite map from property names to values;
      [VUndefined] is a value, so a property that is present and holds
      [undefined] differs from an absent one, as in the spread
      [{ ...initialValues, ...row }];
    - a call of a function held by an atom (the database writers, the audit
      logger) and a dispatch to [tableRowsLocalAtom] are recorded as
      events, in the order in which the program performs them;
    - an [async] helper is a [Task]: the events it performs when it is
      called, up to its first [await] on a database promise, and the events
      it performs once that promise has settled.  Database promises
      settle in the order they were created; they resolve, except in the
      part on database calls that fail;
    - the helpers imported from [@src/utils/table] and from lodash are not
      part of the modelled files: they are the methods of the classes
      [TableUtils] and [Lodash], and every statement holds for all of
      their implementations. *)

From Stdlib Require Import ZArith List Permutation Ascii String.
From stdpp Require Import base option list gmap strings.

Import ListNotations.
Local Open Scope string_scope.
Local Open Scope list_scope.

(** ** Values and objects *)

#[local] Set Warnings "-register-all".

Inductive value : Type :=
| VUndefined
| VNull
| VBool (b : bool)
| VNum (n : Z)
| VStr (s : string)
| VArr (items : list value)
| VObj (props : list (string * value)).

(** A plain object: own enumerable properties by name. *)
Abbreviation obj := (gmap string value).

(** [o[k]]: reading an absent property gives [undefined]. *)
Definition prop (o : obj) (k : string) : value :=
  match o !! k with
  | Some v => v
  | None => VUndefined
  end.

(** [v === undefined] *)
Definition is_undefined (v : value) : bool :=
  match v with
  | VUndefined => true
  | _ => false
  end.

(** [v === true] *)
Definition is_true_value (v : value) : bool :=
  match v with
  | VBool true => true
  | _ => false
  end.

(** [{ ...a, ...b }]: the properties of [b] override those of [a]. *)
Definition spread (a b : obj) : obj := b ∪ a.

(** [s || d] on an optional string: [undefined] and the empty string are
    falsy. *)
Definition or_default (s : option string) (d : string) : string :=
  match s with
  | Some "" => d
  | Some x => x
  | None => d
  end.

(** ** Strings: [path.split("/").slice(0, -1).join("/")] *)

(** One pass of [split("/")]: [cur] is the segment read so far. *)
Fixpoint split_slash_aux (s : string) (cur : string) : list string :=
  match s with
  | EmptyString => [cur]
  | String c rest =>
      if Ascii.eqb c "/"%char
      then cur :: split_slash_aux rest EmptyString
      else split_slash_aux rest (cur +:+ String c EmptyString)
  end.

Definition split_slash (s : string) : list string :=
  split_slash_aux s EmptyString.

(** [xs.slice(0, -1)] *)
Definition slice_init {A} (xs : list A) : list A := removelast xs.

(** [xs.join("/")] *)
Fixpoint join_slash (xs : list string) : string :=
  match xs with
  | [] => ""
  | [x] => x
  | x :: rest => x +:+ "/" +:+ join_slash rest
  end.

(** ** Rows, columns, filters, settings *)

Record TableRowRef : Type := mkRef { ref_id : string; ref_path : string }.

Definition ref_value (r : TableRowRef) : value :=
  VObj [("id", VStr (ref_id r)); ("path", VStr (ref_path r))].

(** A [TableRow]: the document reference every row carries, and its other
    own properties. *)
Record TableRow : Type := mkRow { _rowy_ref : TableRowRef; fields : obj }.

(** The row as a plain object. *)
Definition row_obj (r : TableRow) : obj :=
  <["_rowy_ref" := ref_value (_rowy_ref r)]> (fields r).

(** [{ ...r, _rowy_ref: { id, path } }] *)
Definition with_ref (r : TableRow) (id path : string) : TableRow :=
  {| _rowy_ref := mkRef id path; fields := fields r |}.

Record DefaultValue : Type :=
  mkDefault { dv_type : string; dv_value : value }.

Record ColumnConfig : Type :=
  mkConfig { required : option bool; defaultValue : option DefaultValue }.

Record Column : Type := mkColumn { col_key : string; config : option ColumnConfig }.

Record TableFilter : Type :=
  mkFilter { key : string; operator : string; filter_value : value }.

Record TableSettings : Type :=
  mkSettings {
      audit : option bool;
      auditFieldCreatedBy : option string;
      auditFieldUpdatedBy : option string }.

(** The signed-in user; [rowyUser] turns it into the audit value. *)
Record User : Type := mkUser { uid : string; displayName : string }.

(** ** The atoms read by the write functions *)

(** An atom that holds a function or [undefined] is a [bool]: whether the
    function is there.  Its calls are recorded as events. *)
Record Store : Type :=
  mkStore {
      _updateRowDbAtom : bool;
      _deleteRowDbAtom : bool;
      _bulkWriteDbAtom : bool;
      auditChangeAtom : bool;
      tableSettingsAtom : option TableSettings;
      currentUserAtom : option User;
      tableFiltersAtom : list TableFilter;
      tableColumnsOrderedAtom : list Column;
      tableRowsDbAtom : list TableRow;
      tableRowsLocalAtom : list TableRow;
      tableRowsAtom : list TableRow }.

(** ** Events *)

Inductive RowsLocalAction : Type :=
| LocalAdd (row : obj)
| LocalDelete (path : string)
| LocalUpdate (path : string) (row : obj) (deleteFields : list string).

Record BulkWriteOperation : Type :=
  mkOperation { op_type : string; op_path : string; op_data : obj }.

Inductive AuditType : Type := ADD_ROW | UPDATE_CELL | DELETE_ROW.

Inductive Event : Type :=
| SetRowsLocal (action : RowsLocalAction)
| UpdateRowDb (path : string) (update : obj) (deleteFields : option (list string))
| DeleteRowDb (path : string)
| BulkWriteDb (operations : list BulkWriteOperation)
| AuditChange (type : AuditType) (rowPath : string) (updatedField : option string).

(** An [async] helper that awaits at most one database promise. *)
Record Task : Type := mkTask { started : list Event; resumed : list Event }.

(** [await task] *)
Definition await (t : Task) : list Event := started t ++ resumed t.

(** Calling the helpers one after the other and then
    [await Promise.all(promises)]. *)
Definition promise_all (ts : list Task) : list Event :=
  concat (map started ts) ++ concat (map resumed ts).

(** What a write function leaves behind: the events it performed and the
    message of the [Error] it threw, if any. *)
Record Outcome : Type := mkOutcome { effects : list Event; thrown : option string }.

Definition throw (msg : string) : Outcome := mkOutcome [] (Some msg).
Definition finish (evs : list Event) : Outcome := mkOutcome evs None.

(** ** Imported helpers *)

(** [@src/utils/table].  [generateId n] is the id returned by the [n]-th
    call of the random generator during one run of a write function. *)
Class TableUtils : Type :=
  { rowyUser : User -> value;
    generateId : nat -> string;
    decrementId : option string -> string;
    updateRowData : obj -> obj -> obj;
    omitRowyFields : obj -> obj }.

(** lodash.  [cloneDeep] is the identity on values without identity. *)
Class Lodash : Type :=
  { _get : obj -> string -> value;
    _set : obj -> string -> value -> obj;
    isEqual : value -> value -> bool;
    unset : obj -> string -> obj }.

(** [find(rows, ["_rowy_ref.path", path])] *)
Definition find_by_path (rows : list TableRow) (path : string) : option TableRow :=
  List.find (fun r => String.eqb (ref_path (_rowy_ref r)) path) rows.

(** [Boolean(x)] of a row or [undefined] *)
Definition found {A} (x : option A) : bool :=
  match x with
  | Some _ => true
  | None => false
  end.

(** ** Pieces shared by the write functions *)

(** [column.config?.defaultValue?.type], one iteration of the loop over
    [tableColumnsOrdered]. *)
Definition defaultStep (initialValues : obj) (column : Column) : obj :=
  match config column with
  | Some cfg =>
      match defaultValue cfg with
      | Some dv =>
          if String.eqb (dv_type dv) "static"
          then <[col_key column := dv_value dv]> initialValues
          else if String.eqb (dv_type dv) "null"
               then <[col_key column := VNull]> initialValues
               else initialValues
      | None => initialValues
      end
  | None => initialValues
  end.

Definition applyDefaults (columns : list Column) (initialValues : obj) : obj :=
  fold_left defaultStep columns initialValues.

(** [tableSettings.audit !== false] *)
Definition auditEnabled (s : TableSettings) : bool :=
  match audit s with
  | Some false => false
  | _ => true
  end.

Definition createdByField (s : TableSettings) : string :=
  or_default (auditFieldCreatedBy s) "_createdBy".

Definition updatedByField (s : TableSettings) : string :=
  or_default (auditFieldUpdatedBy s) "_updatedBy".

(** The audit block of [addRowAtom] and [bulkAddRowsAtom]. *)
Definition writeAuditFields {U : TableUtils}
    (s : TableSettings) (u : User) (initialValues : obj) : obj :=
  if auditEnabled s
  then <[updatedByField s := rowyUser u]>
         (<[createdByField s := rowyUser u]> initialValues)
  else initialValues.

(** The audit block of [updateFieldAtom]. *)
Definition writeAuditUpdate {U : TableUtils}
    (s : TableSettings) (u : User) (update : obj) : obj :=
  if auditEnabled s
  then <[updatedByField s := rowyUser u]> update
  else update.

(** [column.config?.required] as a condition *)
Definition isRequired (column : Column) : bool :=
  match config column with
  | Some cfg =>
      match required cfg with
      | Some true => true
      | _ => false
      end
  | None => false
  end.

Definition requiredFields (ignoreRequiredFields : bool) (columns : list Column)
  : list string :=
  if ignoreRequiredFields then []
  else map col_key (List.filter isRequired columns).

Definition missingRequiredFields
    (ignoreRequiredFields : bool) (columns : list Column) (row : obj)
  : list string :=
  if ignoreRequiredFields then []
  else List.filter (fun field => is_undefined (prop row field))
         (requiredFields ignoreRequiredFields columns).

(** [xs.length === 0] *)
Definition is_empty {A} (xs : list A) : bool :=
  match xs with
  | [] => true
  | _ => false
  end.

(** ** [addRowAtom] *)

Inductive SetId : Type := random | decrement.

Record IAddRowOptions : Type :=
  mkAddOptions {
      row : TableRow + list TableRow;
      ignoreRequiredFields : bool;
      setId : option SetId }.

(** [setId !== "decrement"] *)
Definition notDecrement (setId : option SetId) : bool :=
  match setId with
  | Some decrement => false
  | _ => true
  end.

(** One iteration of the loop over [tableFilters]: the initial values and
    the keys still in [outOfOrderFilters]. *)
Definition filterStep (acc : obj * gset string) (filter : TableFilter)
  : obj * gset string :=
  if String.eqb (operator filter) "=="
  then (<[key filter := filter_value filter]> acc.1, acc.2 ∖ {[key filter]})
  else if String.eqb (operator filter) "array-contains"
       then (<[key filter := VArr [filter_value filter]]> acc.1,
             acc.2 ∖ {[key filter]})
       else acc.

Definition applyFilters (tableFilters : list TableFilter) (initialValues : obj)
  : obj * gset string :=
  fold_left filterStep tableFilters
    (initialValues, list_to_set (map key tableFilters)).

(** [`${path.split("/").slice(0, -1).join("/")}/${id}`] *)
Definition siblingPath (path id : string) : string :=
  join_slash (slice_init (split_slash path)) +:+ "/" +:+ id.

Section AddRow.
Context {U : TableUtils}.

(** What the closure [_addSingleRowAndAudit] captures. *)
Variables (tableFilters : list TableFilter)
          (tableColumnsOrdered : list Column)
          (tableSettings : TableSettings)
          (currentUser : User)
          (auditChange : bool)
          (ignoreRequiredFields : bool)
          (setId : option SetId).

(** Lines 69-102: [initialValues] once the three blocks have run. *)
Definition initialValues (row : TableRow) : obj :=
  writeAuditFields tableSettings currentUser
    (applyDefaults tableColumnsOrdered
       (applyFilters tableFilters
          {["_rowy_ref" := ref_value (_rowy_ref row)]}).1).

(** Lines 72-85: the filter keys left in [outOfOrderFilters]. *)
Definition outOfOrderFilters (row : TableRow) : gset string :=
  (applyFilters tableFilters
     {["_rowy_ref" := ref_value (_rowy_ref row)]}).2.

Definition rowValues (row : TableRow) : obj :=
  spread (initialValues row) (row_obj row).

Definition missingFields (row : TableRow) : list string :=
  missingRequiredFields ignoreRequiredFields tableColumnsOrdered (row_obj row).

(** The value stored under [_rowy_outOfOrder] (lines 134-137). *)
Definition outOfOrder (row : TableRow) : bool :=
  is_true_value (prop (row_obj row) "_rowy_outOfOrder")
  || (0 <? size (outOfOrderFilters row))%nat
  || notDecrement setId.

Definition localRow (row : TableRow) : obj :=
  <["_rowy_outOfOrder" := VBool (outOfOrder row)]> (rowValues row).

Definition _addSingleRowAndAudit (row : TableRow) : Task :=
  let path := ref_path (_rowy_ref row) in
  let local :=
    if negb (is_empty (missingFields row))
       || is_true_value (prop (row_obj row) "_rowy_outOfOrder")
       || (0 <? size (outOfOrderFilters row))%nat
       || notDecrement setId
    then [SetRowsLocal (LocalAdd (localRow row))]
    else [] in
  let logged := if auditChange then [AuditChange ADD_ROW path None] else [] in
  if is_empty (missingFields row)
  then mkTask (local ++ [UpdateRowDb path (omitRowyFields (rowValues row)) None])
              logged
  else mkTask (local ++ logged) [].

(** The id given to a row: lines 155-160 with [lastId] the id of the
    previous iteration, lines 174-179 with [lastId] the id of the first
    database row.  [drawn] counts the calls of [generateId] so far. *)
Definition newId (lastId : option string) (drawn : nat) (r : TableRow) : string :=
  match setId with
  | Some random => generateId drawn
  | Some decrement => decrementId lastId
  | None => ref_id (_rowy_ref r)
  end.

(** The argument of [_addSingleRowAndAudit]: lines 163-168 and 181-186. *)
Definition withId (id : string) (r : TableRow) : TableRow :=
  match setId with
  | Some _ => with_ref r id (siblingPath (ref_path (_rowy_ref r)) id)
  | None => r
  end.

(** The state of the loop over an array of rows. *)
Record AddLoop : Type :=
  mkAddLoop { lastId : option string; drawn : nat; promises : list Task }.

Definition addStep (s : AddLoop) (r : TableRow) : AddLoop :=
  let id := newId (lastId s) (drawn s) r in
  {| lastId := Some id;
     drawn := match setId with Some random => S (drawn s) | _ => drawn s end;
     promises := promises s ++ [_addSingleRowAndAudit (withId id r)] |}.

End AddRow.

(** [tableRowsDb[0]?._rowy_ref.id] *)
Definition firstId (tableRowsDb : list TableRow) : option string :=
  match tableRowsDb with
  | r :: _ => Some (ref_id (_rowy_ref r))
  | [] => None
  end.

Definition addRowAtom {U : TableUtils} (st : Store) (o : IAddRowOptions) : Outcome :=
  if negb (_updateRowDbAtom st) then throw "Cannot write to database" else
  match tableSettingsAtom st with
  | None => throw "Cannot read table settings"
  | Some tableSettings =>
      match currentUserAtom st with
      | None => throw "Cannot read current user"
      | Some currentUser =>
          let single :=
            _addSingleRowAndAudit (tableFiltersAtom st)
              (tableColumnsOrderedAtom st) tableSettings currentUser
              (auditChangeAtom st) (ignoreRequiredFields o) (setId o) in
          let tableRowsDb := tableRowsDbAtom st in
          match row o with
          | inr rows =>
              let loop :=
                fold_left
                  (addStep (tableFiltersAtom st) (tableColumnsOrderedAtom st)
                     tableSettings currentUser (auditChangeAtom st)
                     (ignoreRequiredFields o) (setId o))
                  rows (mkAddLoop (firstId tableRowsDb) 0 []) in
              finish (promise_all (promises loop))
          | inl r =>
              let id := newId (setId o) (firstId tableRowsDb) 0 r in
              finish (await (single (withId (setId o) id r)))
          end
      end
  end.

(** ** [deleteRowAtom] *)

Definition _deleteSingleRowAndAudit
    (auditChange : bool) (tableRowsLocal : list TableRow) (path : string) : Task :=
  let isLocalRow := found (find_by_path tableRowsLocal path) in
  let logged := if auditChange then [AuditChange DELETE_ROW path None] else [] in
  if isLocalRow
  then mkTask (SetRowsLocal (LocalDelete path) :: logged) []
  else mkTask [DeleteRowDb path] logged.

Definition deleteRowAtom (st : Store) (path : string + list string) : Outcome :=
  if negb (_deleteRowDbAtom st) then throw "Cannot write to database" else
  let single :=
    _deleteSingleRowAndAudit (auditChangeAtom st) (tableRowsLocalAtom st) in
  match path with
  | inr paths => finish (promise_all (map single paths))
  | inl p => finish (await (single p))
  end.

(** ** [bulkAddRowsAtom] *)

(** [onBatchCommit] is handed on to [bulkWriteDb] as it is and is left
    out. *)
Record IBulkAddRowsOptions : Type :=
  mkBulkOptions { rows : list obj; collection : string }.

(** Lines 247-264. *)
Definition bulkInitialValues {U : TableUtils}
    (tableColumnsOrdered : list Column) (tableSettings : TableSettings)
    (currentUser : User) : obj :=
  writeAuditFields tableSettings currentUser
    (applyDefaults tableColumnsOrdered ∅).

(** [rows.map(...)] of lines 267-271; [drawn] is the number of ids
    generated before the remaining rows. *)
Fixpoint bulkOperations {U : TableUtils}
    (initialValues : obj) (collection : string) (drawn : nat) (rows : list obj)
  : list BulkWriteOperation :=
  match rows with
  | [] => []
  | row :: rest =>
      {| op_type := "add";
         op_path := collection +:+ "/" +:+ generateId drawn;
         op_data := spread initialValues (omitRowyFields row) |}
      :: bulkOperations initialValues collection (S drawn) rest
  end.

Definition bulkAddRowsAtom {U : TableUtils} (st : Store) (o : IBulkAddRowsOptions)
  : Outcome :=
  if negb (_bulkWriteDbAtom st) then throw "Cannot write to database" else
  match tableSettingsAtom st with
  | None => throw "Cannot read table settings"
  | Some tableSettings =>
      match currentUserAtom st with
      | None => throw "Cannot read current user"
      | Some currentUser =>
          let initialValues :=
            bulkInitialValues (tableColumnsOrderedAtom st) tableSettings
              currentUser in
          let operations := bulkOperations initialValues (collection o) 0 (rows o) in
          finish
            (BulkWriteDb operations
             :: (if auditChangeAtom st
                 then map (fun operation =>
                             AuditChange ADD_ROW (op_path operation) None)
                        operations
                 else []))
      end
  end.

(** ** [updateFieldAtom] *)

Record IUpdateFieldOptions : Type :=
  mkUpdateOptions {
      path : string;
      fieldName : string;
      value_ : value;
      deleteField : bool;
      ignoreRequired : bool;
      disableCheckEquality : bool }.

(** [deleteField ? [fieldName] : []] *)
Definition deleteFieldsOf (o : IUpdateFieldOptions) : list string :=
  if deleteField o then [fieldName o] else [].

(** Lines 341-368 when the update is not skipped: the audit field, then
    the field itself unless it is to be deleted. *)
Definition composeUpdate {U : TableUtils} {L : Lodash}
    (tableSettings : TableSettings) (currentUser : User)
    (o : IUpdateFieldOptions) : obj :=
  let update := writeAuditUpdate tableSettings currentUser ∅ in
  if deleteField o then update
  else _set update (fieldName o) (value_ o).

(** Lines 360-365: does the equality check end the call? *)
Definition skipUpdate {L : Lodash} (row : TableRow) (o : IUpdateFieldOptions) : bool :=
  negb (deleteField o) && negb (disableCheckEquality o)
  && isEqual (_get (row_obj row) (fieldName o)) (value_ o).

Definition updateFieldAtom {U : TableUtils} {L : Lodash}
    (st : Store) (o : IUpdateFieldOptions) : Outcome :=
  if negb (_updateRowDbAtom st) then throw "Cannot write to database" else
  match tableSettingsAtom st with
  | None => throw "Cannot read table settings"
  | Some tableSettings =>
      match currentUserAtom st with
      | None => throw "Cannot read current user"
      | Some currentUser =>
          match find_by_path (tableRowsAtom st) (path o) with
          | None => throw "Could not find row"
          | Some row =>
              let isLocalRow := found (find_by_path (tableRowsLocalAtom st) (path o)) in
              let missing :=
                missingRequiredFields (ignoreRequired o)
                  (tableColumnsOrderedAtom st) (row_obj row) in
              if skipUpdate row o then finish [] else
              let update := composeUpdate tableSettings currentUser o in
              let written :=
                if isLocalRow
                then SetRowsLocal (LocalUpdate (path o) update (deleteFieldsOf o))
                     :: (if is_empty missing
                         then
                           let rowValues := updateRowData (row_obj row) update in
                           let rowValues :=
                             if deleteField o then unset rowValues (fieldName o)
                             else rowValues in
                           [UpdateRowDb (ref_path (_rowy_ref row))
                              (omitRowyFields rowValues) (Some (deleteFieldsOf o))]
                         else [])
                else [UpdateRowDb (ref_path (_rowy_ref row))
                        (omitRowyFields update) (Some (deleteFieldsOf o))] in
              finish
                (written ++
                 if auditChangeAtom st
                 then [AuditChange UPDATE_CELL (path o) (Some (fieldName o))]
                 else [])
          end
      end
  end.

(** ** The filter-selection effect of [Filters] *)

(** The [filters] property of a config document. *)
Inductive FiltersProp : Type :=
| FiltersUndefined
| FiltersNull
| FiltersArray (filters : list TableFilter).

(** [Array.isArray(fs) && fs.length > 0] *)
Definition hasFilters (fs : FiltersProp) : bool :=
  match fs with
  | FiltersArray (_ :: _) => true
  | _ => false
  end.

(** [Array.isArray(fs) && fs[0] ? fs[0] : INITIAL_QUERY] *)
Definition firstQuery (INITIAL_QUERY : TableFilter) (fs : FiltersProp) : TableFilter :=
  match fs with
  | FiltersArray (f :: _) => f
  | _ => INITIAL_QUERY
  end.

Inductive FilterInputs : Type := tableFilterInputs | userFilterInputs.

Inductive FiltersEvent : Type :=
| SetQuery (inputs : FilterInputs) (query : TableFilter)
| TableFilterCall (filters : list TableFilter)
| TableOrderBy.

(** [userClaims?.roles.includes("ADMIN")] *)
Definition isAdmin (userClaims : option (list string)) : bool :=
  match userClaims with
  | Some roles => existsb (String.eqb "ADMIN") roles
  | None => false
  end.

(** [fs ?? []], then used as a list of filters *)
Definition filtersOrEmpty (fs : FiltersProp) : list TableFilter :=
  match fs with
  | FiltersArray l => l
  | _ => []
  end.

(** Lines 70-83. *)
Definition filtersToApply
    (userClaims : option (list string)) (tableFilters userFilters : FiltersProp)
  : list TableFilter :=
  if isAdmin userClaims
     && (hasFilters userFilters
         || match userFilters with FiltersNull => true | _ => false end)
  then filtersOrEmpty userFilters
  else if hasFilters tableFilters then filtersOrEmpty tableFilters
  else if hasFilters userFilters then filtersOrEmpty userFilters
  else [].

(** The body of the effect, lines 55-88. *)
Definition filtersEffect
    (INITIAL_QUERY : TableFilter) (tableActions : bool)
    (userClaims : option (list string)) (tableFilters userFilters : FiltersProp)
  : list FiltersEvent :=
  [SetQuery tableFilterInputs (firstQuery INITIAL_QUERY tableFilters);
   SetQuery userFilterInputs (firstQuery INITIAL_QUERY userFilters)]
  ++ (if negb tableActions then []
      else [TableFilterCall (filtersToApply userClaims tableFilters userFilters);
            TableOrderBy]).

(** ** Reading an event log *)

(** Calls that change the remote database. *)
Definition isDbWrite (e : Event) : bool :=
  match e with
  | UpdateRowDb _ _ _ | DeleteRowDb _ | BulkWriteDb _ => true
  | _ => false
  end.

(** Dispatches that change [tableRowsLocalAtom]. *)
Definition isLocalChange (e : Event) : bool :=
  match e with
  | SetRowsLocal _ => true
  | _ => false
  end.

Definition isAuditEntry (e : Event) : bool :=
  match e with
  | AuditChange _ _ _ => true
  | _ => false
  end.

Definition dbWrites (evs : list Event) : list Event := List.filter isDbWrite evs.
Definition localChanges (evs : list Event) : list Event := List.filter isLocalChange evs.
Definition auditEntries (evs : list Event) : list Event := List.filter isAuditEntry evs.

(** ** The array forms, element by element *)

(** The rows handed to [_addSingleRowAndAudit] for an array of rows: the
    ids are fixed first, each one from the id before it, and every row is
    then treated on its own. *)
Fixpoint idChain {U : TableUtils}
    (setId : option SetId) (lastId : option string) (drawn : nat)
    (rows : list TableRow) : list TableRow :=
  match rows with
  | [] => []
  | r :: rest =>
      let id := newId setId lastId drawn r in
      withId setId id r
      :: idChain setId (Some id)
           (match setId with Some random => S drawn | _ => drawn end) rest
  end.

(** Each element treated by the single-element procedure, one call after
    the other, every call awaited before the next. *)
Definition eachInTurn {A} (single : A -> Task) (xs : list A) : list Event :=
  concat (map (fun x => await (single x)) xs).

(** The paths named by the argument of [deleteRowAtom]. *)
Definition pathsOf (path : string + list string) : list string :=
  match path with
  | inl p => [p]
  | inr ps => ps
  end.

Definition isLocalRow (st : Store) (path : string) : bool :=
  found (find_by_path (tableRowsLocalAtom st) path).

(** ** Stand-ins for the imported helpers

    The code of [@src/utils/table] and of lodash is not among the modelled
    files.  The instances below are simple functions of the right types,
    used only to evaluate the model on concrete inputs; the statements
    about the write functions are proved for every instance. *)
Module Sample.

Fixpoint value_eqb (a b : value) : bool :=
  match a, b with
  | VUndefined, VUndefined => true
  | VNull, VNull => true
  | VBool x, VBool y => Bool.eqb x y
  | VNum x, VNum y => Z.eqb x y
  | VStr x, VStr y => String.eqb x y
  | VArr xs, VArr ys =>
      (fix go (xs ys : list value) : bool :=
         match xs, ys with
         | [], [] => true
         | x :: xs', y :: ys' => value_eqb x y && go xs' ys'
         | _, _ => false
         end) xs ys
  | VObj ps, VObj qs =>
      (fix go (ps qs : list (string * value)) : bool :=
         match ps, qs with
         | [], [] => true
         | (k, x) :: ps', (l, y) :: qs' =>
             String.eqb k l && value_eqb x y && go ps' qs'
         | _, _ => false
         end) ps qs
  | _, _ => false
  end.

(** Here rowy-internal fields are the properties whose name starts with
    [_rowy_], a decremented id is the id followed by [-], and the [n]-th
    generated id is [n + 1] letters long. *)
#[export] Instance utils : TableUtils :=
  {| rowyUser u := VObj [("displayName", VStr (displayName u)); ("uid", VStr (uid u))];
     generateId n := String.concat "" (repeat "r" (S n));
     decrementId lastId :=
       match lastId with
       | Some id => id +:+ "-"
       | None => "zzz"
       end;
     updateRowData row update := update ∪ row;
     omitRowyFields row :=
       filter (fun kv => String.prefix "_rowy_" kv.1 = false) row |}.

(** Property names without dots or brackets, and structural equality of
    values. *)
#[export] Instance lodash : Lodash :=
  {| _get o k := prop o k;
     _set o k v := <[k := v]> o;
     isEqual := value_eqb;
     unset o k := delete k o |}.

End Sample.

(** ** Conditions and logs named by the statements *)

(** Every column that its config marks as required has a value other than
    [undefined] in [row]. *)
Definition requiredPresent (columns : list Column) (row : obj) : Prop :=
  forall c, c ∈ columns -> isRequired c = true -> prop row (col_key c) <> VUndefined.

(** Some column that its config marks as required has no value in [row]. *)
Definition requiredMissing (columns : list Column) (row : obj) : Prop :=
  exists c, c ∈ columns /\ isRequired c = true /\ prop row (col_key c) = VUndefined.

(** A filter whose operator lets [addRowAtom] write a matching value. *)
Definition settable (f : TableFilter) : bool :=
  String.eqb (operator f) "==" || String.eqb (operator f) "array-contains".


(** Some filter key has, among the active filters, no filter whose
    operator is [==] or [array-contains]. *)
Definition unfitFilterKey (tableFilters : list TableFilter) : Prop :=
  exists k,
    (exists f, f ∈ tableFilters /\ key f = k)
    /\ forall f, f ∈ tableFilters -> key f = k ->
                 operator f <> "==" /\ operator f <> "array-contains".

(** The write of line 144 for [row]. *)
Definition rowWrite {U : TableUtils}
    (tableFilters : list TableFilter) (tableColumnsOrdered : list Column)
    (tableSettings : TableSettings) (currentUser : User) (row : TableRow) : Event :=
  UpdateRowDb (ref_path (_rowy_ref row))
    (omitRowyFields
       (rowValues tableFilters tableColumnsOrdered tableSettings currentUser row))
    None.

(** The dispatch of lines 130-139 for [row]. *)
Definition rowLocalAdd {U : TableUtils}
    (tableFilters : list TableFilter) (tableColumnsOrdered : list Column)
    (tableSettings : TableSettings) (currentUser : User)
    (setId : option SetId) (row : TableRow) : Event :=
  SetRowsLocal
    (LocalAdd
       (localRow tableFilters tableColumnsOrdered tableSettings currentUser
          setId row)).

(** The rows named by the argument of [addRowAtom]. *)
Definition rowsOf (row : TableRow + list TableRow) : list TableRow :=
  match row with
  | inl r => [r]
  | inr rs => rs
  end.

(** The rows [addRowAtom] hands to [_addSingleRowAndAudit]. *)
Definition processedRows {U : TableUtils} (st : Store) (o : IAddRowOptions)
  : list TableRow :=
  idChain (setId o) (firstId (tableRowsDbAtom st)) 0 (rowsOf (row o)).


(** The database and local events of an update that is carried out. *)
Definition updateWrites {U : TableUtils} {L : Lodash}
    (st : Store) (s : TableSettings) (u : User)
    (row : TableRow) (o : IUpdateFieldOptions) : list Event :=
  let update := composeUpdate s u o in
  if found (find_by_path (tableRowsLocalAtom st) (path o))
  then SetRowsLocal (LocalUpdate (path o) update (deleteFieldsOf o))
       :: (if is_empty (missingRequiredFields (ignoreRequired o)
                          (tableColumnsOrderedAtom st) (row_obj row))
           then [UpdateRowDb (ref_path (_rowy_ref row))
                   (omitRowyFields
                      (if deleteField o
                       then unset (updateRowData (row_obj row) update) (fieldName o)
                       else updateRowData (row_obj row) update))
                   (Some (deleteFieldsOf o))]
           else [])
  else [UpdateRowDb (ref_path (_rowy_ref row)) (omitRowyFields update)
          (Some (deleteFieldsOf o))].

(** The three precondition reads shared by [addRowAtom],
    [bulkAddRowsAtom] and [updateFieldAtom]: the outcome of a call that
    fails one of them. *)
Definition failsPrecondition (out : Outcome) : Prop :=
  effects out = []
  /\ (thrown out = Some "Cannot write to database"
      \/ thrown out = Some "Cannot read table settings"
      \/ thrown out = Some "Cannot read current user").

(** The user has the [ADMIN] role. *)
Definition hasAdminRole (userClaims : option (list string)) : Prop :=
  exists roles, userClaims = Some roles /\ "ADMIN" ∈ roles.

(** Concrete inputs on which the model is run. *)
Module Example.

Definition settings : TableSettings := mkSettings None None None.
Definition user : User := mkUser "u1" "Ann".

(** One required column, [name]. *)
Definition columns : list Column :=
  [mkColumn "name" (Some (mkConfig (Some true) None))].

(** A row without a [name]. *)
Definition unnamed : TableRow := mkRow (mkRef "a" "rows/a") ∅.

(** A row with [count] equal to 1. *)
Definition counted : TableRow :=
  mkRow (mkRef "a" "rows/a") {["count" := VNum 1]}.

(** A store with auditing on, one row in the database and one local
    row. *)
Definition saved : TableRow :=
  mkRow (mkRef "s" "rows/s") {["name" := VStr "Bob"; "count" := VNum 1]}.
Definition draft : TableRow := mkRow (mkRef "d" "rows/d") ∅.
Definition store : Store :=
  mkStore true true true true (Some settings) (Some user) [] columns
    [saved] [draft] [draft; saved].

(** Writing to [count] of the saved row the value it has, and another
    one. *)
Definition sameCount : IUpdateFieldOptions :=
  mkUpdateOptions "rows/s" "count" (VNum 1) false false false.
Definition newCount : IUpdateFieldOptions :=
  mkUpdateOptions "rows/s" "count" (VNum 2) false false false.

(** An update of a row that is not in the table. *)
Definition lostCount : IUpdateFieldOptions :=
  mkUpdateOptions "rows/zz" "count" (VNum 2) false false false.

(** A store in which nothing is set. *)
Definition nothingSet : Store :=
  mkStore false false false false None None [] [] [] [] [].

(** Two filters on the same key, only the first one an equality. *)
Definition twoFilters : list TableFilter :=
  [mkFilter "count" "==" (VNum 1); mkFilter "count" ">" (VNum 0)].

End Example.

(** A log that is computed to a list of events has no event of another
    shape. *)
Ltac absent_from_log Hin :=
  vm_compute in Hin;
  repeat (apply elem_of_cons in Hin as [Hin|Hin]; [discriminate Hin|]);
  inversion Hin.

(** ** More of [Filters]: the apply button and the override flag *)

(** [typeof v] *)
Definition typeof (v : value) : string :=
  match v with
  | VUndefined => "undefined"
  | VNull => "object"
  | VBool _ => "boolean"
  | VNum _ => "number"
  | VStr _ => "string"
  | VArr _ => "object"
  | VObj _ => "object"
  end.

(** Lines 27-31; [_isEmpty] is lodash's [isEmpty]. *)
Definition shouldDisableApplyButton (_isEmpty : value -> bool) (v : value) : bool :=
  _isEmpty v
  && negb (String.eqb (typeof v) "boolean")
  && negb (String.eqb (typeof v) "number")
  && negb (String.eqb (typeof v) "object").

(** [userFilters === null] *)
Definition isNullFilters (fs : FiltersProp) : bool :=
  match fs with
  | FiltersNull => true
  | _ => false
  end.

(** Lines 95-98, as a condition. *)
Definition tableFiltersOverridden
    (userClaims : option (list string)) (tableFilters userFilters : FiltersProp)
  : bool :=
  isAdmin userClaims
  && (hasFilters userFilters || isNullFilters userFilters)
  && hasFilters tableFilters.

Inductive FilterTab : Type := userTab | tableTab.

(** Lines 101-103: the tab shown first. *)
Definition initialTab
    (userClaims : option (list string)) (tableFilters userFilters : FiltersProp)
  : FilterTab :=
  if hasFilters tableFilters
     && negb (tableFiltersOverridden userClaims tableFilters userFilters)
  then tableTab else userTab.

(** ** The cell context menu (BasicCellContextMenuActions.tsx) *)

(** A column and a row of [tableState], as far as the menu reads them. *)
Record MenuColumn : Type := mkMenuColumn { mc_index : nat; mc_key : string }.
Record MenuRow : Type := mkMenuRow { mr_ref : TableRowRef; mr_cells : obj }.

(** What the handlers get from outside: the data type of the column
    ([getFieldProp("dataType", getColumnType(col))]), [Number(text)] with
    [None] for [NaN], and [JSON.parse(text)] with the string form of the
    error it throws. *)
Class MenuEnv : Type :=
  { cellDataType : MenuColumn -> option string;
    toNumber : string -> option value;
    jsonParse : string -> value + string }.

(** How the clipboard answers: [None] when [writeText] resolves, the
    string form of the error when it rejects; the text read, or the string
    form of the error. *)
Record Clipboard : Type :=
  mkClipboard { written : option string; readText : string + string }.

(** The functions taken from the project context and the [reset]
    argument, each of which may be missing. *)
Record MenuContext : Type :=
  mkMenuContext { deleteCell : bool; updateCell : bool; reset : bool }.

Inductive MenuEvent : Type :=
| ClipboardWrite (v : value)
| ClipboardRead
| EnqueueSnackbar (message : string) (variant : string)
| DeleteCell (ref : option TableRowRef) (key : string)
| UpdateCell (ref : option TableRowRef) (key : string) (v : value)
| ResetMenu.

(** [_find(columns, { index: selectedColIndex })] *)
Definition selectedCol (columns : option (list MenuColumn)) (colIndex : nat)
  : option MenuColumn :=
  match columns with
  | Some cs => List.find (fun c => Nat.eqb (mc_index c) colIndex) cs
  | None => None
  end.

(** [rows?.[selectedRowIndex]] *)
Definition selectedRow (rows : option (list MenuRow)) (rowIndex : nat)
  : option MenuRow :=
  match rows with
  | Some rs => rs !! rowIndex
  | None => None
  end.

(** The row as a plain object. *)
Definition menu_row_obj (r : MenuRow) : obj :=
  <["ref" := ref_value (mr_ref r)]> (mr_cells r).

(** [_get(selectedRow, selectedCol.key)]; of no row it is [undefined]. *)
Definition cellValue {L : Lodash} (r : option MenuRow) (c : MenuColumn) : value :=
  match r with
  | Some r => _get (menu_row_obj r) (mc_key c)
  | None => VUndefined
  end.

(** [handleClose]: [await reset?.()] *)
Definition handleClose (ctx : MenuContext) : list MenuEvent :=
  if reset ctx then [ResetMenu] else [].

Section MenuHandlers.
Context {L : Lodash} {E : MenuEnv}.
Variables (ctx : MenuContext) (clip : Clipboard)
          (r : option MenuRow) (c : MenuColumn).

(** Lines 35-43. *)
Definition handleCopy : list MenuEvent :=
  ClipboardWrite (cellValue r c)
  :: match written clip with
     | None => [EnqueueSnackbar "Copied to clipboard" "success"]
     | Some error => [EnqueueSnackbar ("Failed to copy:" +:+ error) "error"]
     end
  ++ handleClose ctx.

(** Lines 45-54. *)
Definition handleCut : list MenuEvent :=
  ClipboardWrite (cellValue r c)
  :: match written clip with
     | None =>
         if negb (String.eqb (typeof (cellValue r c)) "undefined") && deleteCell ctx
         then [DeleteCell (mr_ref <$> r) (mc_key c)]
         else []
     | Some error => [EnqueueSnackbar ("Failed to cut: " +:+ error) "error"]
     end
  ++ handleClose ctx.

(** The [switch] of lines 60-71: the value to paste, or the string form
    of the error thrown. *)
Definition parsePasted (text : string) : value + string :=
  match cellDataType c with
  | Some "number" =>
      match toNumber text with
      | Some parsed => inl parsed
      | None => inr ("Error: " +:+ text +:+ " is not a number")
      end
  | Some "string" => inl (VStr text)
  | _ => jsonParse text
  end.

(** Lines 56-78. *)
Definition handlePaste : list MenuEvent :=
  ClipboardRead
  :: match readText clip with
     | inl text =>
         match parsePasted text with
         | inl parsed =>
             if updateCell ctx
             then [UpdateCell (mr_ref <$> r) (mc_key c) parsed]
             else []
         | inr error => [EnqueueSnackbar ("Failed to paste: " +:+ error) "error"]
         end
     | inr error => [EnqueueSnackbar ("Failed to paste: " +:+ error) "error"]
     end
  ++ handleClose ctx.

End MenuHandlers.

(** Events that change the table. *)
Definition isCellChange (e : MenuEvent) : bool :=
  match e with
  | DeleteCell _ _ | UpdateCell _ _ _ => true
  | _ => false
  end.

Definition isSnackbar (e : MenuEvent) : bool :=
  match e with
  | EnqueueSnackbar _ _ => true
  | _ => false
  end.

(** ** Stand-ins for what the menu and the apply button import

    As in [Sample]: simple functions of the right types, used only to
    evaluate the model on concrete inputs. *)
Module MenuSample.

(** Columns named [count] hold numbers, the others strings; only the
    text [7] is read as a number, and nothing parses as JSON. *)
#[export] Instance env : MenuEnv :=
  {| cellDataType c :=
       if String.eqb (mc_key c) "count" then Some "number" else Some "string";
     toNumber text := if String.eqb text "7" then Some (VNum 7) else None;
     jsonParse text := inr "SyntaxError: Unexpected token" |}.

(** Emptiness of a value: no characters, no items, no properties; true of
    the values that are not collections. *)
Definition isEmpty (v : value) : bool :=
  match v with
  | VStr s => String.eqb s ""
  | VArr items => is_empty items
  | VObj props => is_empty props
  | _ => true
  end.

Definition column : MenuColumn := mkMenuColumn 2 "name".
Definition counter : MenuColumn := mkMenuColumn 3 "count".
Definition line : MenuRow :=
  mkMenuRow (mkRef "s" "rows/s") {["name" := VStr "Bob"; "count" := VNum 1]}.
Definition everything : MenuContext := mkMenuContext true true true.

End MenuSample.

(** ** Conditions named by the further statements *)

(** No ["/"] in the string. *)
Fixpoint slash_free (s : string) : bool :=
  match s with
  | EmptyString => true
  | String c rest => negb (Ascii.eqb c "/"%char) && slash_free rest
  end.

(** The column sets a default: [defaultValue.type] is ["static"] or
    ["null"]. *)
Definition hasDefault (column : Column) : bool :=
  match config column with
  | Some cfg =>
      match defaultValue cfg with
      | Some dv => String.eqb (dv_type dv) "static" || String.eqb (dv_type dv) "null"
      | None => false
      end
  | None => false
  end.

(** The value a column with a default writes. *)
Definition defaultOf (column : Column) : value :=
  match config column with
  | Some cfg =>
      match defaultValue cfg with
      | Some dv => if String.eqb (dv_type dv) "static" then dv_value dv else VNull
      | None => VNull
      end
  | None => VNull
  end.

(** The value an [==] or [array-contains] filter writes. *)
Definition filterInitial (f : TableFilter) : value :=
  if String.eqb (operator f) "==" then filter_value f else VArr [filter_value f].

(** The audit block may write under [k]. *)
Definition auditWrites (s : TableSettings) (k : string) : Prop :=
  auditEnabled s = true /\ (k = createdByField s \/ k = updatedByField s).

(** A log in which the local changes come first, then the database
    calls, then the audit entries. *)
Definition localThenDbThenAudit (evs : list Event) : Prop :=
  evs = localChanges evs ++ dbWrites evs ++ auditEntries evs.

(** ** Database calls that fail

    The tasks above are the runs in which every database promise
    resolves.  Here the database may reject a call: an answer is [None]
    when the promise resolves and the string form of the error when it
    rejects.  A rejected [await] throws, so what the helper would do after
    it is not done; the other helpers of a fan-out run on, and
    [Promise.all] rejects with the first rejection. *)

(** The task awaits a database call: it has made one. *)
Definition awaits (t : Task) : bool := negb (is_empty (dbWrites (started t))).

(** The call the task awaits is rejected. *)
Definition rejects (answer : option string) (t : Task) : bool :=
  awaits t && found answer.

Definition settleTask (answer : option string) (t : Task) : Task :=
  if rejects answer t then mkTask (started t) [] else t.

(** [answers i] is the answer to the call awaited by the [i]-th task. *)
Fixpoint settleAll (answers : nat -> option string) (ts : list Task) : list Task :=
  match ts with
  | [] => []
  | t :: rest =>
      settleTask (answers 0) t :: settleAll (fun i => answers (S i)) rest
  end.

Fixpoint firstRejection (answers : nat -> option string) (ts : list Task)
  : option string :=
  match ts with
  | [] => None
  | t :: rest =>
      if rejects (answers 0) t then answers 0
      else firstRejection (fun i => answers (S i)) rest
  end.

(** [await Promise.all(promises)], and [await task] for one task. *)
Definition settled (answers : nat -> option string) (ts : list Task) : Outcome :=
  mkOutcome (promise_all (settleAll answers ts)) (firstRejection answers ts).

Definition addRowAtomSettled {U : TableUtils}
    (answers : nat -> option string) (st : Store) (o : IAddRowOptions) : Outcome :=
  if negb (_updateRowDbAtom st) then throw "Cannot write to database" else
  match tableSettingsAtom st with
  | None => throw "Cannot read table settings"
  | Some tableSettings =>
      match currentUserAtom st with
      | None => throw "Cannot read current user"
      | Some currentUser =>
          let single :=
            _addSingleRowAndAudit (tableFiltersAtom st)
              (tableColumnsOrderedAtom st) tableSettings currentUser
              (auditChangeAtom st) (ignoreRequiredFields o) (setId o) in
          let tableRowsDb := tableRowsDbAtom st in
          match row o with
          | inr rows =>
              let loop :=
                fold_left
                  (addStep (tableFiltersAtom st) (tableColumnsOrderedAtom st)
                     tableSettings currentUser (auditChangeAtom st)
                     (ignoreRequiredFields o) (setId o))
                  rows (mkAddLoop (firstId tableRowsDb) 0 []) in
              settled answers (promises loop)
          | inl r =>
              let id := newId (setId o) (firstId tableRowsDb) 0 r in
              settled answers [single (withId (setId o) id r)]
          end
      end
  end.

Definition deleteRowAtomSettled
    (answers : nat -> option string) (st : Store) (path : string + list string)
  : Outcome :=
  if negb (_deleteRowDbAtom st) then throw "Cannot write to database" else
  let single :=
    _deleteSingleRowAndAudit (auditChangeAtom st) (tableRowsLocalAtom st) in
  match path with
  | inr paths => settled answers (map single paths)
  | inl p => settled answers [single p]
  end.

(** [updateFieldAtom] awaits the one database call it makes, if it makes
    one (lines 385 and 394), before the audit entry. *)
Definition updateFieldAtomSettled {U : TableUtils} {L : Lodash}
    (answer : option string) (st : Store) (o : IUpdateFieldOptions) : Outcome :=
  if negb (_updateRowDbAtom st) then throw "Cannot write to database" else
  match tableSettingsAtom st with
  | None => throw "Cannot read table settings"
  | Some tableSettings =>
      match currentUserAtom st with
      | None => throw "Cannot read current user"
      | Some currentUser =>
          match find_by_path (tableRowsAtom st) (path o) with
          | None => throw "Could not find row"
          | Some row =>
              if skipUpdate row o then finish [] else
              let written := updateWrites st tableSettings currentUser row o in
              match (if is_empty (dbWrites written) then None else answer) with
              | Some error => mkOutcome written (Some error)
              | None =>
                  finish
                    (written ++
                     if auditChangeAtom st
                     then [AuditChange UPDATE_CELL (path o) (Some (fieldName o))]
                     else [])
              end
          end
      end
  end.

(** The elements whose task is not cut short by a rejected call. *)
Fixpoint completed {A} (single : A -> Task) (answers : nat -> option string)
    (xs : list A) : list A :=
  match xs with
  | [] => []
  | x :: rest =>
      (if rejects (answers 0) (single x) then [] else [x])
      ++ completed single (fun i => answers (S i)) rest
  end.

(** Every call resolves. *)
Definition allResolve : nat -> option string := fun _ => None.

(** A store with one column, [age], that has the static default 3. *)
Definition agedStore : Store :=
  mkStore true true true true (Some (mkSettings None None None))
    (Some (mkUser "u1" "Ann")) []
    [mkColumn "age" (Some (mkConfig None (Some (mkDefault "static" (VNum 3)))))]
    [] [] [].

(** The database rejects the first call and no other. *)
Definition firstFails : nat -> option string :=
  fun i => match i with 0 => Some "unavailable" | _ => None end.

(** ** Defaults, key by key *)

(** The default a list of columns gives to key [k]: that of the last
    column with this key that sets one. *)
Fixpoint defaultFor (columns : list Column) (k : string) : option value :=
  match columns with
  | [] => None
  | c :: rest =>
      match defaultFor rest k with
      | Some v => Some v
      | None =>
          if String.eqb (col_key c) k && hasDefault c
          then Some (defaultOf c) else None
      end
  end.

(** * Properties *)

(** ** Event logs *)

Section Logs.

Lemma dbWrites_app (xs ys : list Event) :
  dbWrites (xs ++ ys) = dbWrites xs ++ dbWrites ys.
Proof. apply List.filter_app. Qed.

Lemma localChanges_app (xs ys : list Event) :
  localChanges (xs ++ ys) = localChanges xs ++ localChanges ys.
Proof. apply List.filter_app. Qed.

Lemma auditEntries_app (xs ys : list Event) :
  auditEntries (xs ++ ys) = auditEntries xs ++ auditEntries ys.
Proof. apply List.filter_app. Qed.

Lemma is_empty_nil {A} (xs : list A) : is_empty xs = true <-> xs = [].
Proof. destruct xs; simpl; split; congruence. Qed.

Lemma is_undefined_spec (v : value) : is_undefined v = true <-> v = VUndefined.
Proof. destruct v; simpl; split; congruence. Qed.



End Logs.

(** ** Required fields *)


Lemma missing_nil_iff (columns : list Column) (row : obj) :
  missingRequiredFields false columns row = [] <-> requiredPresent columns row.
Proof.
  unfold missingRequiredFields, requiredFields, requiredPresent. simpl.
  induction columns as [|c cs IH]; simpl.
  - split; [intros _ c Hc; inversion Hc | reflexivity].
  - destruct (isRequired c) eqn:Hreq; simpl.
    + destruct (is_undefined (prop row (col_key c))) eqn:Hu.
      * split; [discriminate|]. intros Hall.
        apply is_undefined_spec in Hu.
        exfalso. apply (Hall c); [left | assumption | assumption].
      * rewrite IH. split.
        -- intros Hall c' Hc' Hr'. apply elem_of_cons in Hc' as [->|Hc'].
           ++ intros Heq. apply is_undefined_spec in Heq. congruence.
           ++ apply Hall; assumption.
        -- intros Hall c' Hc'. apply Hall. right; assumption.
    + rewrite IH. split.
      * intros Hall c' Hc' Hr'. apply elem_of_cons in Hc' as [->|Hc'].
        -- congruence.
        -- apply Hall; assumption.
      * intros Hall c' Hc'. apply Hall. right; assumption.
Qed.

Lemma missing_elem (columns : list Column) (row : obj) (field : string) :
  field ∈ missingRequiredFields false columns row
  <-> exists c, c ∈ columns /\ isRequired c = true /\ col_key c = field
                /\ prop row field = VUndefined.
Proof.
  unfold missingRequiredFields, requiredFields. simpl.
  rewrite list_elem_of_In, filter_In, in_map_iff, is_undefined_spec.
  setoid_rewrite filter_In. setoid_rewrite <- list_elem_of_In.
  split.
  - intros [[c [Hkey [Hc Hreq]]] Hundef]. exists c. tauto.
  - intros [c [Hc [Hreq [Hkey Hundef]]]]. split; [exists c; tauto | exact Hundef].
Qed.

Lemma required_missing_iff (columns : list Column) (row : obj) :
  requiredMissing columns row <-> ~ requiredPresent columns row.
Proof.
  split.
  - intros [c [Hc [Hreq Hundef]]] Hpresent. exact (Hpresent c Hc Hreq Hundef).
  - intros Hno.
    destruct (missingRequiredFields false columns row) as [|field rest] eqn:Hmissing.
    + exfalso. apply Hno, missing_nil_iff. exact Hmissing.
    + assert (Hin : field ∈ missingRequiredFields false columns row)
        by (rewrite Hmissing; left).
      apply missing_elem in Hin as [c [Hc [Hreq [<- Hundef]]]].
      exists c. tauto.
Qed.

(** ** The filter loop *)





(** ** [_addSingleRowAndAudit]: the database write and the local row *)

Section AddSingle.
Context {U : TableUtils}.
Variables (tableFilters : list TableFilter)
          (tableColumnsOrdered : list Column)
          (tableSettings : TableSettings)
          (currentUser : User)
          (auditChange : bool)
          (setId : option SetId).

Local Abbreviation single ignore :=
  (_addSingleRowAndAudit tableFilters tableColumnsOrdered tableSettings
     currentUser auditChange ignore setId).



Lemma single_auditEntries (ignore : bool) (row : TableRow) :
  auditEntries (await (single ignore row))
  = if auditChange then [AuditChange ADD_ROW (ref_path (_rowy_ref row)) None] else [].
Proof.
  unfold _addSingleRowAndAudit, await.
  destruct (is_empty _); simpl;
    rewrite ?auditEntries_app;
    repeat match goal with |- context [if ?b then _ else _] => destruct b end;
    reflexivity.
Qed.

End AddSingle.






(** The filter condition is by key: with an equality and an inequality on
    the same key, the key is given a value and the row is not added to the
    local rows, although one filter has another operator. *)
Lemma addRow_local_filter_by_key :
  (exists f, f ∈ Example.twoFilters
             /\ operator f <> "==" /\ operator f <> "array-contains")
  /\ ~ unfitFilterKey Example.twoFilters
  /\ localChanges
       (await (_addSingleRowAndAudit (U := Sample.utils) Example.twoFilters []
                 Example.settings Example.user false false (Some decrement)
                 Example.counted)) = [].
Proof.
  split; [|split].
  - exists (mkFilter "count" ">" (VNum 0)). split.
    + right. left.
    + split; discriminate.
  - intros [k [[f [Hf Hk]] Hall]].
    assert (k = "count") as ->.
    { unfold Example.twoFilters in Hf.
      repeat (apply elem_of_cons in Hf as [->|Hf]; [symmetry; exact Hk|]).
      inversion Hf. }
    destruct (Hall (mkFilter "count" "==" (VNum 1))) as [Hne _].
    + left.
    + reflexivity.
    + apply Hne. reflexivity.
  - vm_compute. reflexivity.
Qed.

(** ** Fan-out of tasks *)

Section FanOut.

Lemma promise_all_cons (t : Task) (ts : list Task) :
  promise_all (t :: ts)
  = started t ++ concat (map started ts) ++ resumed t ++ concat (map resumed ts).
Proof. unfold promise_all. simpl. rewrite <- !app_assoc. reflexivity. Qed.

Lemma promise_all_one (t : Task) : promise_all [t] = await t.
Proof. unfold promise_all, await. simpl. rewrite !app_nil_r. reflexivity. Qed.

(** Fan-out performs the events of the tasks awaited in turn, in another
    order. *)
Lemma promise_all_perm (ts : list Task) :
  Permutation (promise_all ts) (concat (map await ts)).
Proof.
  induction ts as [|t ts IH]; [constructor|].
  rewrite promise_all_cons. simpl. unfold await at 1.
  rewrite <- app_assoc. apply Permutation_app_head.
  rewrite Permutation_app_swap_app. apply Permutation_app_head.
  exact IH.
Qed.

Lemma resumed_filter_nil (p : Event -> bool) (ts : list Task) :
  (forall t, t ∈ ts -> List.filter p (resumed t) = []) ->
  List.filter p (concat (map resumed ts)) = [].
Proof.
  induction ts as [|t ts IH]; intros Hres; [reflexivity|].
  simpl. rewrite List.filter_app, (Hres t) by left. simpl.
  apply IH. intros t' Ht'. apply Hres. right. exact Ht'.
Qed.

(** Events of a kind that no task performs after its await keep their
    order. *)
Lemma promise_all_filter (p : Event -> bool) (ts : list Task) :
  (forall t, t ∈ ts -> List.filter p (resumed t) = []) ->
  List.filter p (promise_all ts) = List.filter p (concat (map await ts)).
Proof.
  intros Hres. unfold promise_all.
  rewrite List.filter_app, (resumed_filter_nil p ts Hres), app_nil_r.
  induction ts as [|t ts IH]; [reflexivity|].
  simpl. unfold await at 1.
  rewrite !List.filter_app, (Hres t) by left.
  rewrite app_nil_r, IH; [reflexivity|].
  intros t' Ht'. apply Hres. right. exact Ht'.
Qed.

Lemma eachInTurn_map {A} (single : A -> Task) (xs : list A) :
  concat (map await (map single xs)) = eachInTurn single xs.
Proof. unfold eachInTurn. rewrite map_map. reflexivity. Qed.

End FanOut.

(** ** The loop of [addRowAtom] *)

Section AddLoopFacts.
Context {U : TableUtils}.
Variables (tableFilters : list TableFilter)
          (tableColumnsOrdered : list Column)
          (tableSettings : TableSettings)
          (currentUser : User)
          (auditChange : bool)
          (ignoreRequiredFields : bool)
          (setId : option SetId).

Local Abbreviation single :=
  (_addSingleRowAndAudit tableFilters tableColumnsOrdered tableSettings
     currentUser auditChange ignoreRequiredFields setId).

Local Abbreviation step :=
  (addStep tableFilters tableColumnsOrdered tableSettings currentUser
     auditChange ignoreRequiredFields setId).

(** The loop hands to the helper the rows of the id chain, in order. *)
Lemma addLoop_promises (rows : list TableRow) (s : AddLoop) :
  promises (fold_left step rows s)
  = promises s ++ map single (idChain setId (lastId s) (drawn s) rows).
Proof.
  revert s. induction rows as [|r rows IH]; intros s; simpl.
  - rewrite app_nil_r. reflexivity.
  - rewrite IH. unfold addStep at 2. simpl.
    rewrite <- app_assoc. reflexivity.
Qed.

Lemma single_resumed_quiet (r : TableRow) :
  dbWrites (resumed (single r)) = [] /\ localChanges (resumed (single r)) = [].
Proof.
  unfold _addSingleRowAndAudit.
  destruct (is_empty _), auditChange; split; reflexivity.
Qed.

End AddLoopFacts.

Section AddAtomFacts.
Context {U : TableUtils}.

Lemma addRowAtom_run (st : Store) (o : IAddRowOptions)
    (s : TableSettings) (u : User) :
  _updateRowDbAtom st = true ->
  tableSettingsAtom st = Some s ->
  currentUserAtom st = Some u ->
  addRowAtom st o
  = finish
      (promise_all
         (map (_addSingleRowAndAudit (tableFiltersAtom st)
                 (tableColumnsOrderedAtom st) s u (auditChangeAtom st)
                 (ignoreRequiredFields o) (setId o))
            (processedRows st o))).
Proof.
  intros Hdb Hs Hu. unfold addRowAtom, processedRows.
  rewrite Hdb, Hs, Hu. simpl.
  destruct (row o) as [r|rs]; simpl.
  - rewrite promise_all_one. reflexivity.
  - rewrite addLoop_promises. reflexivity.
Qed.






End AddAtomFacts.

(** ** [deleteRowAtom] *)

Section DeleteFacts.
Variable st : Store.

Local Abbreviation single :=
  (_deleteSingleRowAndAudit (auditChangeAtom st) (tableRowsLocalAtom st)).

Lemma deleteRowAtom_run (path : string + list string) :
  _deleteRowDbAtom st = true ->
  deleteRowAtom st path = finish (promise_all (map single (pathsOf path))).
Proof.
  intros Hdb. unfold deleteRowAtom. rewrite Hdb. simpl.
  destruct path as [p|ps]; simpl; [rewrite promise_all_one|]; reflexivity.
Qed.

Lemma deleteRowAtom_unset (path : string + list string) :
  _deleteRowDbAtom st = false ->
  deleteRowAtom st path = throw "Cannot write to database".
Proof. intros Hdb. unfold deleteRowAtom. rewrite Hdb. reflexivity. Qed.

Lemma delete_resumed_quiet (p : string) :
  dbWrites (resumed (single p)) = [] /\ localChanges (resumed (single p)) = [].
Proof.
  unfold _deleteSingleRowAndAudit.
  destruct (found _), (auditChangeAtom st); split; reflexivity.
Qed.

Lemma delete_single_dbWrites (p : string) :
  dbWrites (await (single p)) = if isLocalRow st p then [] else [DeleteRowDb p].
Proof.
  unfold _deleteSingleRowAndAudit, isLocalRow, await.
  destruct (found _), (auditChangeAtom st); reflexivity.
Qed.

Lemma delete_single_localChanges (p : string) :
  localChanges (await (single p))
  = if isLocalRow st p then [SetRowsLocal (LocalDelete p)] else [].
Proof.
  unfold _deleteSingleRowAndAudit, isLocalRow, await.
  destruct (found _), (auditChangeAtom st); reflexivity.
Qed.

Lemma delete_single_auditEntries (p : string) :
  auditEntries (await (single p))
  = if auditChangeAtom st then [AuditChange DELETE_ROW p None] else [].
Proof.
  unfold _deleteSingleRowAndAudit, await.
  destruct (found _), (auditChangeAtom st); reflexivity.
Qed.

End DeleteFacts.

(** ** Logs of calls made in turn *)

Section InTurn.
Context {A : Type}.

Lemma filter_perm (p : Event -> bool) (xs ys : list Event) :
  Permutation xs ys -> Permutation (List.filter p xs) (List.filter p ys).
Proof.
  induction 1 as [|x xs ys _ IH|x y xs|xs ys zs _ IH1 _ IH2]; simpl.
  - constructor.
  - destruct (p x); [constructor|]; exact IH.
  - destruct (p x), (p y); try reflexivity. constructor.
  - etransitivity; eassumption.
Qed.

Lemma filter_eachInTurn (p : Event -> bool) (single : A -> Task) (xs : list A) :
  List.filter p (eachInTurn single xs)
  = concat (map (fun x => List.filter p (await (single x))) xs).
Proof.
  unfold eachInTurn. induction xs as [|x xs IH]; simpl; [reflexivity|].
  rewrite List.filter_app, IH. reflexivity.
Qed.

(** When each call logs one event of the kind, or none, by a test on its
    element. *)
Lemma concat_map_if (keep : A -> bool) (ev : A -> Event) (xs : list A) :
  concat (map (fun x => if keep x then [ev x] else []) xs)
  = map ev (List.filter keep xs).
Proof.
  induction xs as [|x xs IH]; simpl; [reflexivity|].
  rewrite IH. destruct (keep x); reflexivity.
Qed.

Lemma concat_map_one (ev : A -> Event) (xs : list A) :
  concat (map (fun x => [ev x]) xs) = map ev xs.
Proof. induction xs as [|x xs IH]; simpl; [|rewrite IH]; reflexivity. Qed.

Lemma elem_of_map_filter (keep : A -> bool) (ev : A -> Event) (xs : list A) (x : A) :
  (forall a b, ev a = ev b -> a = b) ->
  ev x ∈ map ev (List.filter keep xs) <-> x ∈ xs /\ keep x = true.
Proof.
  intros Hinj. rewrite !list_elem_of_In, in_map_iff. split.
  - intros [y [Heq Hy]]. apply Hinj in Heq. subst y.
    apply filter_In in Hy. exact Hy.
  - intros Hx. exists x. split; [reflexivity|]. apply filter_In. exact Hx.
Qed.

Lemma elem_of_filter_log (p : Event -> bool) (e : Event) (evs : list Event) :
  p e = true -> e ∈ evs <-> e ∈ List.filter p evs.
Proof. intros He. rewrite !list_elem_of_In, filter_In. tauto. Qed.

Lemma map_ext_eq {B} (f g : A -> B) (xs : list A) :
  (forall x, f x = g x) -> map f xs = map g xs.
Proof. intros Hfg. induction xs as [|x xs IH]; simpl; [|rewrite Hfg, IH]; reflexivity. Qed.

End InTurn.

(** C4: for every path given to [deleteRowAtom], when a row with that path
    is among the local rows the delete is dispatched to the local rows and
    the remote delete function is not called for it; otherwise the remote
    delete function is called for it and nothing is dispatched to the
    local rows.  The database calls of a run are the remote deletes of
    the paths that are not local, the local changes the deletes of those
    that are. *)
Theorem delete_local_or_remote (st : Store) (path : string + list string) :
  _deleteRowDbAtom st = true ->
  let events := effects (deleteRowAtom st path) in
  dbWrites events
  = map DeleteRowDb (List.filter (fun p => negb (isLocalRow st p)) (pathsOf path))
  /\ localChanges events
     = map (fun p => SetRowsLocal (LocalDelete p))
         (List.filter (isLocalRow st) (pathsOf path))
  /\ forall p, p ∈ pathsOf path ->
       if isLocalRow st p
       then SetRowsLocal (LocalDelete p) ∈ events /\ DeleteRowDb p ∉ events
       else DeleteRowDb p ∈ events /\ SetRowsLocal (LocalDelete p) ∉ events.
Proof.
  intros Hdb events.
  assert (Hdbw : dbWrites events
    = map DeleteRowDb (List.filter (fun p => negb (isLocalRow st p)) (pathsOf path))).
  { unfold events. rewrite (deleteRowAtom_run st path Hdb). simpl.
    unfold dbWrites. rewrite promise_all_filter
      by (intros t [p [<- _]]%list_elem_of_In%in_map_iff;
          apply delete_resumed_quiet).
    rewrite eachInTurn_map, filter_eachInTurn.
    rewrite <- concat_map_if. f_equal. apply map_ext_eq. intros p.
    fold (dbWrites (await (_deleteSingleRowAndAudit (auditChangeAtom st)
                             (tableRowsLocalAtom st) p))).
    rewrite delete_single_dbWrites. destruct (isLocalRow st p); reflexivity. }
  assert (Hloc : localChanges events
    = map (fun p => SetRowsLocal (LocalDelete p))
        (List.filter (isLocalRow st) (pathsOf path))).
  { unfold events. rewrite (deleteRowAtom_run st path Hdb). simpl.
    unfold localChanges. rewrite promise_all_filter
      by (intros t [p [<- _]]%list_elem_of_In%in_map_iff;
          apply delete_resumed_quiet).
    rewrite eachInTurn_map, filter_eachInTurn.
    rewrite <- concat_map_if. f_equal. apply map_ext_eq. intros p.
    fold (localChanges (await (_deleteSingleRowAndAudit (auditChangeAtom st)
                                 (tableRowsLocalAtom st) p))).
    rewrite delete_single_localChanges. reflexivity. }
  split; [exact Hdbw|]. split; [exact Hloc|].
  intros p Hp.
  assert (Hin_db : forall q, DeleteRowDb q ∈ events
                     <-> q ∈ pathsOf path /\ isLocalRow st q = false).
  { intros q. rewrite (elem_of_filter_log isDbWrite) by reflexivity.
    fold (dbWrites events). rewrite Hdbw.
    rewrite (elem_of_map_filter _ DeleteRowDb) by (intros a b; congruence).
    rewrite negb_true_iff. reflexivity. }
  assert (Hin_loc : forall q, SetRowsLocal (LocalDelete q) ∈ events
                      <-> q ∈ pathsOf path /\ isLocalRow st q = true).
  { intros q. rewrite (elem_of_filter_log isLocalChange) by reflexivity.
    fold (localChanges events). rewrite Hloc.
    rewrite (elem_of_map_filter _ (fun p => SetRowsLocal (LocalDelete p)))
      by (intros a b; congruence).
    reflexivity. }
  destruct (isLocalRow st p) eqn:Hl.
  - split; [apply Hin_loc; tauto|]. intros Hin. apply Hin_db in Hin. destruct Hin. congruence.
  - split; [apply Hin_db; tauto|]. intros Hin. apply Hin_loc in Hin. destruct Hin. congruence.
Qed.


(** ** Audit entries and precondition reads *)

Section AtomRuns.
Context {U : TableUtils} {L : Lodash}.

Lemma addRowAtom_returns (st : Store) (o : IAddRowOptions) :
  thrown (addRowAtom st o) = None ->
  _updateRowDbAtom st = true
  /\ exists s u, tableSettingsAtom st = Some s /\ currentUserAtom st = Some u.
Proof.
  unfold addRowAtom.
  destruct (_updateRowDbAtom st); [|discriminate].
  destruct (tableSettingsAtom st) as [s|]; [|discriminate].
  destruct (currentUserAtom st) as [u|]; [|discriminate].
  intros _. split; [reflexivity|]. exists s, u. split; reflexivity.
Qed.

Lemma deleteRowAtom_returns (st : Store) (path : string + list string) :
  thrown (deleteRowAtom st path) = None -> _deleteRowDbAtom st = true.
Proof.
  unfold deleteRowAtom. destruct (_deleteRowDbAtom st); [reflexivity|discriminate].
Qed.

(** The database calls and the local changes of [addRowAtom] are those of
    [_addSingleRowAndAudit] on the processed rows, row after row. *)
Lemma addRowAtom_row_by_row (st : Store) (o : IAddRowOptions)
    (s : TableSettings) (u : User) :
  _updateRowDbAtom st = true ->
  tableSettingsAtom st = Some s ->
  currentUserAtom st = Some u ->
  let single :=
    _addSingleRowAndAudit (tableFiltersAtom st) (tableColumnsOrderedAtom st)
      s u (auditChangeAtom st) (ignoreRequiredFields o) (setId o) in
  dbWrites (effects (addRowAtom st o))
  = concat (map (fun r => dbWrites (await (single r))) (processedRows st o))
  /\ localChanges (effects (addRowAtom st o))
     = concat (map (fun r => localChanges (await (single r))) (processedRows st o)).
Proof.
  intros Hdb Hs Hu single.
  rewrite (addRowAtom_run st o s u Hdb Hs Hu). simpl.
  unfold dbWrites, localChanges.
  rewrite !promise_all_filter, !eachInTurn_map, !filter_eachInTurn;
    try (intros t [r [<- _]]%list_elem_of_In%in_map_iff;
         apply single_resumed_quiet).
  split; reflexivity.
Qed.

Lemma addRowAtom_auditEntries (st : Store) (o : IAddRowOptions) :
  thrown (addRowAtom st o) = None ->
  auditChangeAtom st = true ->
  Permutation (auditEntries (effects (addRowAtom st o)))
    (map (fun r => AuditChange ADD_ROW (ref_path (_rowy_ref r)) None)
       (processedRows st o)).
Proof.
  intros [Hdb [s [u [Hs Hu]]]]%addRowAtom_returns Haudit.
  rewrite (addRowAtom_run st o s u Hdb Hs Hu). simpl.
  etransitivity; [apply filter_perm, promise_all_perm|].
  rewrite eachInTurn_map. unfold auditEntries. rewrite filter_eachInTurn.
  rewrite <- concat_map_one.
  erewrite map_ext_eq; [reflexivity|]. intros r.
  fold (auditEntries (await (_addSingleRowAndAudit (tableFiltersAtom st)
          (tableColumnsOrderedAtom st) s u (auditChangeAtom st)
          (ignoreRequiredFields o) (setId o) r))).
  rewrite single_auditEntries, Haudit. reflexivity.
Qed.

Lemma deleteRowAtom_auditEntries (st : Store) (path : string + list string) :
  thrown (deleteRowAtom st path) = None ->
  auditChangeAtom st = true ->
  Permutation (auditEntries (effects (deleteRowAtom st path)))
    (map (fun p => AuditChange DELETE_ROW p None) (pathsOf path)).
Proof.
  intros Hdb%deleteRowAtom_returns Haudit.
  rewrite (deleteRowAtom_run st path Hdb). simpl.
  etransitivity; [apply filter_perm, promise_all_perm|].
  rewrite eachInTurn_map. unfold auditEntries. rewrite filter_eachInTurn.
  rewrite <- concat_map_one.
  erewrite map_ext_eq; [reflexivity|]. intros p.
  fold (auditEntries (await (_deleteSingleRowAndAudit (auditChangeAtom st)
                               (tableRowsLocalAtom st) p))).
  rewrite delete_single_auditEntries, Haudit. reflexivity.
Qed.

Lemma updateFieldAtom_run (st : Store) (o : IUpdateFieldOptions)
    (s : TableSettings) (u : User) (row : TableRow) :
  _updateRowDbAtom st = true ->
  tableSettingsAtom st = Some s ->
  currentUserAtom st = Some u ->
  find_by_path (tableRowsAtom st) (path o) = Some row ->
  updateFieldAtom st o
  = if skipUpdate row o then finish []
    else finish
           (updateWrites st s u row o ++
            if auditChangeAtom st
            then [AuditChange UPDATE_CELL (path o) (Some (fieldName o))]
            else []).
Proof.
  intros Hdb Hs Hu Hrow. unfold updateFieldAtom, updateWrites.
  rewrite Hdb, Hs, Hu, Hrow. simpl.
  destruct (skipUpdate row o); reflexivity.
Qed.

Lemma updateFieldAtom_returns (st : Store) (o : IUpdateFieldOptions) :
  thrown (updateFieldAtom st o) = None ->
  _updateRowDbAtom st = true
  /\ exists s u row,
       tableSettingsAtom st = Some s /\ currentUserAtom st = Some u
       /\ find_by_path (tableRowsAtom st) (path o) = Some row.
Proof.
  unfold updateFieldAtom.
  destruct (_updateRowDbAtom st); [|discriminate].
  destruct (tableSettingsAtom st) as [s|]; [|discriminate].
  destruct (currentUserAtom st) as [u|]; [|discriminate].
  destruct (find_by_path (tableRowsAtom st) (path o)) as [row|]; [|discriminate].
  intros _. split; [reflexivity|]. exists s, u, row. repeat split; reflexivity.
Qed.

Lemma updateWrites_no_audit (st : Store) (s : TableSettings) (u : User)
    (row : TableRow) (o : IUpdateFieldOptions) :
  auditEntries (updateWrites st s u row o) = [].
Proof.
  unfold updateWrites.
  destruct (found _); [destruct (is_empty _)|]; reflexivity.
Qed.

End AtomRuns.

(** *** When a database call fails *)

Section Settled.
Context {U : TableUtils} {L : Lodash}.

Lemma settleAll_resolve (ts : list Task) : settleAll allResolve ts = ts.
Proof.
  induction ts as [|t ts IH]; [reflexivity|].
  simpl. change (fun i : nat => allResolve (S i)) with allResolve. rewrite IH.
  unfold settleTask, rejects, allResolve. rewrite andb_false_r. reflexivity.
Qed.

Lemma firstRejection_resolve (ts : list Task) : firstRejection allResolve ts = None.
Proof.
  induction ts as [|t ts IH]; [reflexivity|].
  simpl. change (fun i : nat => allResolve (S i)) with allResolve. rewrite IH.
  unfold rejects, allResolve. rewrite andb_false_r. reflexivity.
Qed.

Lemma settled_resolve (ts : list Task) :
  settled allResolve ts = finish (promise_all ts).
Proof.
  unfold settled. rewrite settleAll_resolve, firstRejection_resolve. reflexivity.
Qed.

(** When every call resolves, the runs are those of the atoms. *)
Lemma settled_atoms_resolve (st : Store) :
  (forall o, addRowAtomSettled allResolve st o = addRowAtom st o)
  /\ (forall path, deleteRowAtomSettled allResolve st path = deleteRowAtom st path)
  /\ (forall o, updateFieldAtomSettled None st o = updateFieldAtom st o).
Proof.
  split; [|split].
  - intros o. unfold addRowAtomSettled, addRowAtom.
    destruct (_updateRowDbAtom st); [|reflexivity].
    destruct (tableSettingsAtom st); [|reflexivity].
    destruct (currentUserAtom st); [|reflexivity].
    simpl. destruct (row o); rewrite settled_resolve;
      [rewrite promise_all_one|]; reflexivity.
  - intros path. unfold deleteRowAtomSettled, deleteRowAtom.
    destruct (_deleteRowDbAtom st); [|reflexivity].
    simpl. destruct path; rewrite settled_resolve;
      [rewrite promise_all_one|]; reflexivity.
  - intros o. unfold updateFieldAtomSettled, updateFieldAtom, updateWrites.
    destruct (_updateRowDbAtom st); [|reflexivity].
    destruct (tableSettingsAtom st); [|reflexivity].
    destruct (currentUserAtom st); [|reflexivity].
    destruct (find_by_path (tableRowsAtom st) (path o)); [|reflexivity].
    simpl. destruct (skipUpdate _ o); [reflexivity|].
    destruct (is_empty (dbWrites _)); reflexivity.
Qed.

Lemma addRowAtomSettled_run (answers : nat -> option string) (st : Store)
    (o : IAddRowOptions) (s : TableSettings) (u : User) :
  _updateRowDbAtom st = true ->
  tableSettingsAtom st = Some s ->
  currentUserAtom st = Some u ->
  addRowAtomSettled answers st o
  = settled answers
      (map (_addSingleRowAndAudit (tableFiltersAtom st)
              (tableColumnsOrderedAtom st) s u (auditChangeAtom st)
              (ignoreRequiredFields o) (setId o))
         (processedRows st o)).
Proof.
  intros Hdb Hs Hu. unfold addRowAtomSettled, processedRows.
  rewrite Hdb, Hs, Hu. simpl.
  destruct (row o) as [r|rs]; simpl; [reflexivity|].
  rewrite addLoop_promises. reflexivity.
Qed.

Lemma deleteRowAtomSettled_run (answers : nat -> option string) (st : Store)
    (path : string + list string) :
  _deleteRowDbAtom st = true ->
  deleteRowAtomSettled answers st path
  = settled answers
      (map (_deleteSingleRowAndAudit (auditChangeAtom st) (tableRowsLocalAtom st))
         (pathsOf path)).
Proof.
  intros Hdb. unfold deleteRowAtomSettled. rewrite Hdb. simpl.
  destruct path; reflexivity.
Qed.

(** The audit entries of a fan-out in which each task, run to its end,
    records one entry, after the call it awaits. *)
Lemma settled_auditEntries {A} (single : A -> Task) (entry : A -> Event)
    (answers : nat -> option string) (xs : list A) :
  (forall x a,
     auditEntries (await (settleTask a (single x)))
     = if rejects a (single x) then [] else [entry x]) ->
  Permutation (auditEntries (promise_all (settleAll answers (map single xs))))
    (map entry (completed single answers xs)).
Proof.
  intros Hone.
  assert (Hturn : auditEntries
                    (concat (map await (settleAll answers (map single xs))))
                  = map entry (completed single answers xs)).
  { revert answers. induction xs as [|x xs IH]; intros answers; [reflexivity|].
    simpl. rewrite auditEntries_app, Hone, map_app, IH.
    destruct (rejects (answers 0) (single x)); reflexivity. }
  rewrite <- Hturn. apply filter_perm, promise_all_perm.
Qed.

Lemma add_settled_entry
    (tableFilters : list TableFilter) (tableColumnsOrdered : list Column)
    (s : TableSettings) (u : User) (ignore : bool) (setId : option SetId)
    (r : TableRow) (a : option string) :
  let single :=
    _addSingleRowAndAudit tableFilters tableColumnsOrdered s u true ignore setId in
  auditEntries (await (settleTask a (single r)))
  = if rejects a (single r) then []
    else [AuditChange ADD_ROW (ref_path (_rowy_ref r)) None].
Proof.
  intros single.
  unfold settleTask, rejects, awaits, single, _addSingleRowAndAudit, await.
  destruct (is_empty (missingFields _ _ _)), a; simpl;
    rewrite ?dbWrites_app, ?auditEntries_app;
    repeat match goal with |- context [if ?b then _ else _] => destruct b end;
    reflexivity.
Qed.

Lemma delete_settled_entry (rowsLocal : list TableRow) (p : string)
    (a : option string) :
  let single := _deleteSingleRowAndAudit true rowsLocal in
  auditEntries (await (settleTask a (single p)))
  = if rejects a (single p) then [] else [AuditChange DELETE_ROW p None].
Proof.
  intros single.
  unfold settleTask, rejects, awaits, single, _deleteSingleRowAndAudit, await.
  destruct (found (find_by_path rowsLocal p)), a; reflexivity.
Qed.

End Settled.

(** C3, amended: when an audit function is configured, every mutation
    that is carried out to its end records its audit entry.  [addRowAtom]
    records one ["ADD_ROW"] entry with the row's path for every row it
    processes, except the rows whose awaited database write is rejected;
    [deleteRowAtom] one ["DELETE_ROW"] entry for every path, except the
    paths whose awaited remote delete is rejected; [updateFieldAtom] one
    ["UPDATE_CELL"] entry with the path and the field name, unless the
    equality check ends the call or the database write it awaits is
    rejected, in which case it records none.  Rows and paths for which no
    database call is made are always recorded. *)
Theorem completed_mutations_are_audited {U : TableUtils} {L : Lodash}
    (st : Store) :
  auditChangeAtom st = true ->
  (forall (answers : nat -> option string) (o : IAddRowOptions)
          (s : TableSettings) (u : User),
     _updateRowDbAtom st = true ->
     tableSettingsAtom st = Some s ->
     currentUserAtom st = Some u ->
     Permutation (auditEntries (effects (addRowAtomSettled answers st o)))
       (map (fun r => AuditChange ADD_ROW (ref_path (_rowy_ref r)) None)
          (completed
             (_addSingleRowAndAudit (tableFiltersAtom st)
                (tableColumnsOrderedAtom st) s u (auditChangeAtom st)
                (ignoreRequiredFields o) (setId o))
             answers (processedRows st o))))
  /\ (forall (answers : nat -> option string) (path : string + list string),
        _deleteRowDbAtom st = true ->
        Permutation (auditEntries (effects (deleteRowAtomSettled answers st path)))
          (map (fun p => AuditChange DELETE_ROW p None)
             (completed
                (_deleteSingleRowAndAudit (auditChangeAtom st)
                   (tableRowsLocalAtom st))
                answers (pathsOf path))))
  /\ (forall (answer : option string) (o : IUpdateFieldOptions)
             (s : TableSettings) (u : User) (row : TableRow),
        _updateRowDbAtom st = true ->
        tableSettingsAtom st = Some s ->
        currentUserAtom st = Some u ->
        find_by_path (tableRowsAtom st) (path o) = Some row ->
        skipUpdate row o = false ->
        auditEntries (effects (updateFieldAtomSettled answer st o))
        = if negb (is_empty (dbWrites (updateWrites st s u row o))) && found answer
          then []
          else [AuditChange UPDATE_CELL (path o) (Some (fieldName o))])
  /\ (forall (a : option string) (t : Task),
        rejects a t = true <-> dbWrites (started t) <> [] /\ a <> None)
  /\ (forall (o : IAddRowOptions), addRowAtomSettled allResolve st o = addRowAtom st o)
  /\ (forall (path : string + list string),
        deleteRowAtomSettled allResolve st path = deleteRowAtom st path)
  /\ (forall (o : IUpdateFieldOptions),
        updateFieldAtomSettled None st o = updateFieldAtom st o).
Proof.
  intros Haudit.
  split; [|split; [|split; [|split]]].
  - intros answers o s u Hdb Hs Hu.
    rewrite (addRowAtomSettled_run answers st o s u Hdb Hs Hu). simpl.
    apply settled_auditEntries. intros r a. rewrite Haudit.
    apply add_settled_entry.
  - intros answers path Hdb.
    rewrite (deleteRowAtomSettled_run answers st path Hdb). simpl.
    apply settled_auditEntries. intros p a. rewrite Haudit.
    apply delete_settled_entry.
  - intros answer o s u row Hdb Hs Hu Hrow Hskip.
    unfold updateFieldAtomSettled. rewrite Hdb, Hs, Hu, Hrow, Hskip. simpl.
    destruct (is_empty (dbWrites (updateWrites st s u row o))); simpl.
    + rewrite auditEntries_app, updateWrites_no_audit, Haudit. reflexivity.
    + destruct answer as [error|]; simpl.
      * apply updateWrites_no_audit.
      * rewrite auditEntries_app, updateWrites_no_audit, Haudit. reflexivity.
  - intros a t. unfold rejects, awaits.
    rewrite andb_true_iff, negb_true_iff.
    destruct (is_empty (dbWrites (started t))) eqn:Hempty, a; simpl.
    + apply is_empty_nil in Hempty. intuition congruence.
    + apply is_empty_nil in Hempty. intuition congruence.
    + assert (dbWrites (started t) <> [])
        by (intros Hnil; apply is_empty_nil in Hnil; congruence).
      intuition congruence.
    + intuition congruence.
  - apply settled_atoms_resolve.
Qed.

Lemma completed_mutations_are_audited_witness :
  Permutation
    (auditEntries
       (effects (addRowAtomSettled (U := Sample.utils) firstFails Example.store
                   (mkAddOptions (inr [Example.unnamed; Example.counted]) true
                      (Some decrement)))))
    [AuditChange ADD_ROW "rows/s--" None]
  /\ Permutation
       (auditEntries
          (effects (deleteRowAtomSettled firstFails Example.store
                      (inr ["rows/d"; "rows/s"]))))
       [AuditChange DELETE_ROW "rows/d" None; AuditChange DELETE_ROW "rows/s" None]
  /\ auditEntries
       (effects (updateFieldAtomSettled (U := Sample.utils) (L := Sample.lodash)
                   (Some "unavailable") Example.store Example.newCount))
     = []
  /\ auditEntries
       (effects (updateFieldAtomSettled (U := Sample.utils) (L := Sample.lodash)
                   None Example.store Example.newCount))
     = [AuditChange UPDATE_CELL "rows/s" (Some "count")].
Proof.
  destruct (completed_mutations_are_audited (U := Sample.utils)
              (L := Sample.lodash) Example.store eq_refl)
    as [Hadd [Hdel [Hupd _]]].
  split; [|split; [|split]].
  - exact (Hadd firstFails
             (mkAddOptions (inr [Example.unnamed; Example.counted]) true
                (Some decrement))
             Example.settings Example.user eq_refl eq_refl eq_refl).
  - exact (Hdel firstFails (inr ["rows/d"; "rows/s"]) eq_refl).
  - exact (Hupd (Some "unavailable") Example.newCount Example.settings
             Example.user Example.saved eq_refl eq_refl eq_refl eq_refl eq_refl).
  - exact (Hupd None Example.newCount Example.settings Example.user Example.saved
             eq_refl eq_refl eq_refl eq_refl eq_refl).
Defined.

(** A rejected write leaves the row processed and unrecorded: the local
    row is dispatched, the write is attempted, and no entry follows. *)
Lemma rejected_write_not_audited :
  addRowAtomSettled (U := Sample.utils) firstFails Example.store
    (mkAddOptions (inl Example.counted) true None)
  = mkOutcome
      [rowLocalAdd (U := Sample.utils) [] Example.columns Example.settings
         Example.user None Example.counted;
       rowWrite (U := Sample.utils) [] Example.columns Example.settings
         Example.user Example.counted]
      (Some "unavailable").
Proof. reflexivity. Qed.

(** C3 as stated fails: with an audit function configured, an update that
    writes to a field the value it already has records no audit entry. *)
Lemma update_of_equal_value_not_audited :
  auditChangeAtom Example.store = true
  /\ thrown (updateFieldAtom (U := Sample.utils) (L := Sample.lodash)
               Example.store Example.sameCount) = None
  /\ AuditChange UPDATE_CELL (path Example.sameCount)
       (Some (fieldName Example.sameCount))
     ∉ effects (updateFieldAtom (U := Sample.utils) (L := Sample.lodash)
                  Example.store Example.sameCount).
Proof.
  split; [reflexivity|]. split; [reflexivity|].
  intros Hin. absent_from_log Hin.
Qed.

(** C8: with [deleteField] and [disableCheckEquality] not set, a call of
    [updateFieldAtom] whose value is deeply equal to the current value of
    the row at [fieldName] returns with no event at all: nothing is
    dispatched to the local rows, no database function is called and no
    audit entry is recorded. *)
Theorem update_equal_value_no_effect {U : TableUtils} {L : Lodash}
    (st : Store) (o : IUpdateFieldOptions)
    (s : TableSettings) (u : User) (row : TableRow) :
  _updateRowDbAtom st = true ->
  tableSettingsAtom st = Some s ->
  currentUserAtom st = Some u ->
  find_by_path (tableRowsAtom st) (path o) = Some row ->
  deleteField o = false ->
  disableCheckEquality o = false ->
  isEqual (_get (row_obj row) (fieldName o)) (value_ o) = true ->
  updateFieldAtom st o = finish [].
Proof.
  intros Hdb Hs Hu Hrow Hdel Hcheck Heq.
  rewrite (updateFieldAtom_run st o s u row Hdb Hs Hu Hrow).
  unfold skipUpdate. rewrite Hdel, Hcheck, Heq. reflexivity.
Qed.

Lemma update_equal_value_no_effect_witness :
  updateFieldAtom (U := Sample.utils) (L := Sample.lodash)
    Example.store Example.sameCount = finish [].
Proof.
  apply (update_equal_value_no_effect (U := Sample.utils) (L := Sample.lodash)
           Example.store Example.sameCount Example.settings Example.user
           Example.saved);
    reflexivity.
Defined.

(** C9: a write function whose precondition read fails throws and performs
    no event: [addRowAtom] and [updateFieldAtom] when the database write
    function, the table settings or the current user is unset,
    [bulkAddRowsAtom] likewise with the bulk write function, and
    [deleteRowAtom], which reads the delete function only, when that one
    is unset; [updateFieldAtom] also throws ["Could not find row"], with
    no event, when no row of the table has the given path. *)
Theorem failed_precondition_throws {U : TableUtils} {L : Lodash} (st : Store) :
  (forall o : IAddRowOptions,
     _updateRowDbAtom st = false \/ tableSettingsAtom st = None
     \/ currentUserAtom st = None ->
     failsPrecondition (addRowAtom st o))
  /\ (forall path : string + list string,
        _deleteRowDbAtom st = false ->
        deleteRowAtom st path = throw "Cannot write to database")
  /\ (forall o : IBulkAddRowsOptions,
        _bulkWriteDbAtom st = false \/ tableSettingsAtom st = None
        \/ currentUserAtom st = None ->
        failsPrecondition (bulkAddRowsAtom st o))
  /\ (forall o : IUpdateFieldOptions,
        _updateRowDbAtom st = false \/ tableSettingsAtom st = None
        \/ currentUserAtom st = None ->
        failsPrecondition (updateFieldAtom st o))
  /\ (forall o : IUpdateFieldOptions,
        find_by_path (tableRowsAtom st) (path o) = None ->
        effects (updateFieldAtom st o) = []
        /\ thrown (updateFieldAtom st o) <> None
        /\ (_updateRowDbAtom st = true ->
            tableSettingsAtom st <> None ->
            currentUserAtom st <> None ->
            thrown (updateFieldAtom st o) = Some "Could not find row")).
Proof.
  unfold failsPrecondition.
  split; [|split; [|split; [|split]]].
  - intros o. unfold addRowAtom.
    destruct (_updateRowDbAtom st), (tableSettingsAtom st), (currentUserAtom st);
      simpl; intuition congruence.
  - intros path. apply deleteRowAtom_unset.
  - intros o. unfold bulkAddRowsAtom.
    destruct (_bulkWriteDbAtom st), (tableSettingsAtom st), (currentUserAtom st);
      simpl; intuition congruence.
  - intros o. unfold updateFieldAtom.
    destruct (_updateRowDbAtom st), (tableSettingsAtom st), (currentUserAtom st);
      simpl; intuition congruence.
  - intros o Hrow. unfold updateFieldAtom. rewrite Hrow.
    destruct (_updateRowDbAtom st), (tableSettingsAtom st), (currentUserAtom st);
      simpl; intuition congruence.
Qed.

Lemma failed_precondition_throws_witness :
  failsPrecondition
    (addRowAtom (U := Sample.utils) Example.nothingSet
       (mkAddOptions (inl Example.unnamed) false None))
  /\ deleteRowAtom Example.nothingSet (inl "rows/d") = throw "Cannot write to database"
  /\ failsPrecondition
       (bulkAddRowsAtom (U := Sample.utils) Example.nothingSet (mkBulkOptions [∅] "rows"))
  /\ failsPrecondition
       (updateFieldAtom (U := Sample.utils) (L := Sample.lodash) Example.nothingSet
          Example.newCount)
  /\ thrown (updateFieldAtom (U := Sample.utils) (L := Sample.lodash)
               Example.store Example.lostCount) = Some "Could not find row".
Proof.
  destruct (failed_precondition_throws (U := Sample.utils) (L := Sample.lodash)
              Example.nothingSet) as [Hadd [Hdel [Hbulk [Hupd _]]]].
  destruct (failed_precondition_throws (U := Sample.utils) (L := Sample.lodash)
              Example.store) as [_ [_ [_ [_ Hrow]]]].
  split; [apply Hadd; left; reflexivity|].
  split; [apply Hdel; reflexivity|].
  split; [apply Hbulk; left; reflexivity|].
  split; [apply Hupd; left; reflexivity|].
  apply (Hrow Example.lostCount eq_refl); [reflexivity | discriminate | discriminate].
Defined.

(** ** Audit fields *)

Section AuditFields.
Context {U : TableUtils}.
Variables (s : TableSettings) (u : User).

Lemma auditEnabled_spec : auditEnabled s = true <-> audit s <> Some false.
Proof.
  unfold auditEnabled. destruct (audit s) as [[|]|]; split; congruence.
Qed.

Lemma writeAuditFields_created (init : obj) :
  audit s <> Some false ->
  writeAuditFields s u init !! createdByField s = Some (rowyUser u).
Proof.
  intros Hon%auditEnabled_spec. unfold writeAuditFields. rewrite Hon.
  destruct (decide (updatedByField s = createdByField s)) as [->|Hne].
  - apply lookup_insert_eq.
  - rewrite lookup_insert_ne by exact Hne. apply lookup_insert_eq.
Qed.

Lemma writeAuditFields_updated (init : obj) :
  audit s <> Some false ->
  writeAuditFields s u init !! updatedByField s = Some (rowyUser u).
Proof.
  intros Hon%auditEnabled_spec. unfold writeAuditFields. rewrite Hon.
  apply lookup_insert_eq.
Qed.

Lemma writeAuditFields_off (init : obj) :
  audit s = Some false -> writeAuditFields s u init = init.
Proof. intros Hoff. unfold writeAuditFields, auditEnabled. rewrite Hoff. reflexivity. Qed.

End AuditFields.

(** C5, amended: unless [tableSettings.audit] is [false], the initial
    values composed by [addRowAtom] and by [bulkAddRowsAtom] hold the
    audit value of the current user under the created-by and the
    updated-by field names, which are the configured names or
    ["_createdBy"] and ["_updatedBy"]; the update composed by
    [updateFieldAtom] holds it under the updated-by name whenever
    [deleteField] is set or writing [fieldName] leaves that property as
    it is.  When [audit] is [false] the initial values are those of the
    filters and defaults alone, and the update is the field applied to
    the empty object, or the empty object when [deleteField] is set. *)
Theorem audit_fields_written {U : TableUtils} {L : Lodash}
    (s : TableSettings) (u : User) :
  (auditFieldCreatedBy s = None -> createdByField s = "_createdBy")
  /\ (auditFieldUpdatedBy s = None -> updatedByField s = "_updatedBy")
  /\ (forall name, name <> "" ->
        (auditFieldCreatedBy s = Some name -> createdByField s = name)
        /\ (auditFieldUpdatedBy s = Some name -> updatedByField s = name))
  /\ (audit s <> Some false ->
      (forall filters columns row,
         initialValues filters columns s u row !! createdByField s
         = Some (rowyUser u)
         /\ initialValues filters columns s u row !! updatedByField s
            = Some (rowyUser u))
      /\ (forall columns,
            bulkInitialValues columns s u !! createdByField s = Some (rowyUser u)
            /\ bulkInitialValues columns s u !! updatedByField s
               = Some (rowyUser u))
      /\ (forall o : IUpdateFieldOptions,
            deleteField o = true
            \/ (forall base : obj,
                  _set base (fieldName o) (value_ o) !! updatedByField s
                  = base !! updatedByField s) ->
            composeUpdate s u o !! updatedByField s = Some (rowyUser u)))
  /\ (audit s = Some false ->
      (forall filters columns row,
         initialValues filters columns s u row
         = applyDefaults columns
             (applyFilters filters
                {["_rowy_ref" := ref_value (_rowy_ref row)]}).1)
      /\ (forall columns, bulkInitialValues columns s u = applyDefaults columns ∅)
      /\ (forall o : IUpdateFieldOptions,
            composeUpdate s u o
            = if deleteField o then ∅ else _set ∅ (fieldName o) (value_ o))).
Proof.
  split; [|split; [|split; [|split]]].
  - unfold createdByField. intros ->. reflexivity.
  - unfold updatedByField. intros ->. reflexivity.
  - intros name Hname. unfold createdByField, updatedByField.
    split; intros ->; destruct name; [congruence | reflexivity | congruence | reflexivity].
  - intros Hon. split; [|split].
    + intros filters columns row. unfold initialValues.
      split; [apply writeAuditFields_created | apply writeAuditFields_updated];
        exact Hon.
    + intros columns. unfold bulkInitialValues.
      split; [apply writeAuditFields_created | apply writeAuditFields_updated];
        exact Hon.
    + intros o Hkept. unfold composeUpdate, writeAuditUpdate.
      apply auditEnabled_spec in Hon. rewrite Hon.
      destruct (deleteField o) eqn:Hdel.
      * apply lookup_insert_eq.
      * destruct Hkept as [Hdel'|Hkept]; [discriminate|].
        rewrite Hkept. apply lookup_insert_eq.
  - intros Hoff. split; [|split].
    + intros filters columns row. unfold initialValues.
      apply writeAuditFields_off. exact Hoff.
    + intros columns. unfold bulkInitialValues.
      apply writeAuditFields_off. exact Hoff.
    + intros o. unfold composeUpdate, writeAuditUpdate, auditEnabled.
      rewrite Hoff. reflexivity.
Qed.

Lemma audit_fields_written_witness :
  initialValues (U := Sample.utils) [] Example.columns Example.settings
    Example.user Example.unnamed !! "_createdBy"
  = Some (VObj [("displayName", VStr "Ann"); ("uid", VStr "u1")])
  /\ bulkInitialValues (U := Sample.utils) Example.columns Example.settings
       Example.user !! "_updatedBy"
     = Some (VObj [("displayName", VStr "Ann"); ("uid", VStr "u1")])
  /\ composeUpdate (U := Sample.utils) (L := Sample.lodash) Example.settings
       Example.user Example.newCount !! "_updatedBy"
     = Some (VObj [("displayName", VStr "Ann"); ("uid", VStr "u1")])
  /\ bulkInitialValues (U := Sample.utils) Example.columns
       (mkSettings (Some false) None None) Example.user
     = ∅.
Proof.
  destruct (audit_fields_written (U := Sample.utils) (L := Sample.lodash)
              Example.settings Example.user)
    as [_ [_ [_ [Hon _]]]].
  destruct (Hon ltac:(discriminate)) as [Hadd [Hbulk Hupdate]].
  destruct (audit_fields_written (U := Sample.utils) (L := Sample.lodash)
              (mkSettings (Some false) None None) Example.user)
    as [_ [_ [_ [_ Hoff]]]].
  destruct (Hoff eq_refl) as [_ [Hbulk' _]].
  split; [exact (proj1 (Hadd [] Example.columns Example.unnamed))|].
  split; [exact (proj2 (Hbulk Example.columns))|].
  split; [|exact (Hbulk' Example.columns)].
  apply (Hupdate Example.newCount). right. intros base.
  apply lookup_insert_ne. discriminate.
Defined.

(** C5 as stated fails: with auditing on, an update of the updated-by
    field itself composes an update that holds the value given by the
    caller there, not the current user, and that is what is written. *)
Lemma update_of_audit_field_keeps_caller_value :
  auditEnabled Example.settings = true
  /\ composeUpdate (U := Sample.utils) (L := Sample.lodash) Example.settings
       Example.user
       (mkUpdateOptions "rows/s" "_updatedBy" (VStr "mallory") false false false)
     !! updatedByField Example.settings
     = Some (VStr "mallory")
  /\ VStr "mallory" <> rowyUser (TableUtils := Sample.utils) Example.user
  /\ dbWrites
       (effects
          (updateFieldAtom (U := Sample.utils) (L := Sample.lodash) Example.store
             (mkUpdateOptions "rows/s" "_updatedBy" (VStr "mallory") false false
                false)))
     = [UpdateRowDb "rows/s" {["_updatedBy" := VStr "mallory"]} (Some [])].
Proof.
  split; [reflexivity|]. split; [reflexivity|]. split; [discriminate|].
  vm_compute. reflexivity.
Qed.

(** ** [bulkAddRowsAtom] *)

Section BulkFacts.
Context {U : TableUtils}.

Lemma bulkOperations_length (init : obj) (c : string) (rows : list obj) (n : nat) :
  length (bulkOperations init c n rows) = length rows.
Proof.
  revert n. induction rows as [|r rows IH]; intros n; simpl;
    [reflexivity | rewrite IH; reflexivity].
Qed.

Lemma bulkOperations_lookup (init : obj) (c : string) (rows : list obj)
    (n i : nat) (r : obj) :
  rows !! i = Some r ->
  bulkOperations init c n rows !! i
  = Some {| op_type := "add";
            op_path := c +:+ "/" +:+ generateId (n + i);
            op_data := spread init (omitRowyFields r) |}.
Proof.
  revert n i. induction rows as [|r0 rows IH]; intros n i Hi.
  - destruct i; discriminate.
  - destruct i as [|i]; simpl in *.
    + injection Hi as ->. rewrite Nat.add_0_r. reflexivity.
    + rewrite (IH _ _ Hi). replace (S n + i) with (n + S i) by lia.
      reflexivity.
Qed.

End BulkFacts.

(** ** Filter selection *)

Lemma isAdmin_spec (userClaims : option (list string)) :
  isAdmin userClaims = true <-> hasAdminRole userClaims.
Proof.
  unfold isAdmin, hasAdminRole. destruct userClaims as [roles|].
  - rewrite existsb_exists. split.
    + intros [r [Hr Heq]]. apply String.eqb_eq in Heq. subst r.
      exists roles. split; [reflexivity | apply list_elem_of_In; exact Hr].
    + intros [roles' [[= <-] Hin]]. exists "ADMIN".
      split; [apply list_elem_of_In; exact Hin | reflexivity].
  - split; [discriminate | intros [roles [Hno _]]; discriminate].
Qed.

(** C10: the filters handed to the table follow a fixed precedence.  For
    an admin whose user filters are a non-empty list or [null], the user
    filters, the empty list when [null]; otherwise the table filters when
    they are a non-empty list; otherwise the user filters when they are a
    non-empty list; otherwise the empty list.  When table actions are
    available the effect applies these filters and then resets the
    ordering, and it does neither when they are not. *)
Theorem filters_precedence
    (INITIAL_QUERY : TableFilter) (userClaims : option (list string))
    (tableFilters userFilters : FiltersProp) :
  let chosen := filtersToApply userClaims tableFilters userFilters in
  let override :=
    hasAdminRole userClaims
    /\ (hasFilters userFilters = true \/ userFilters = FiltersNull) in
  (override -> forall fs, userFilters = FiltersArray fs -> chosen = fs)
  /\ (override -> userFilters = FiltersNull -> chosen = [])
  /\ (~ override ->
      forall fs, tableFilters = FiltersArray fs -> fs <> [] -> chosen = fs)
  /\ (~ override -> hasFilters tableFilters = false ->
      forall fs, userFilters = FiltersArray fs -> fs <> [] -> chosen = fs)
  /\ (~ override -> hasFilters tableFilters = false ->
      hasFilters userFilters = false -> chosen = [])
  /\ filtersEffect INITIAL_QUERY true userClaims tableFilters userFilters
     = [SetQuery tableFilterInputs (firstQuery INITIAL_QUERY tableFilters);
        SetQuery userFilterInputs (firstQuery INITIAL_QUERY userFilters);
        TableFilterCall chosen; TableOrderBy]
  /\ filtersEffect INITIAL_QUERY false userClaims tableFilters userFilters
     = [SetQuery tableFilterInputs (firstQuery INITIAL_QUERY tableFilters);
        SetQuery userFilterInputs (firstQuery INITIAL_QUERY userFilters)].
Proof.
  intros chosen override.
  assert (Hover :
    isAdmin userClaims
    && (hasFilters userFilters
        || match userFilters with FiltersNull => true | _ => false end) = true
    <-> override).
  { unfold override. rewrite andb_true_iff, orb_true_iff, isAdmin_spec.
    destruct userFilters; intuition congruence. }
  assert (Hnot :
    ~ override ->
    isAdmin userClaims
    && (hasFilters userFilters
        || match userFilters with FiltersNull => true | _ => false end) = false).
  { intros Hno. destruct (isAdmin userClaims && _) eqn:Hb; [|reflexivity].
    exfalso. apply Hno, Hover. reflexivity. }
  unfold chosen, filtersToApply.
  split; [|split; [|split; [|split; [|split; [|split]]]]].
  - intros Ho%Hover fs ->. rewrite Ho. reflexivity.
  - intros Ho%Hover ->. rewrite Ho. reflexivity.
  - intros Hno%Hnot fs -> Hne. rewrite Hno.
    destruct fs; [congruence | reflexivity].
  - intros Hno%Hnot Htab fs -> Hne. rewrite Hno, Htab.
    destruct fs; [congruence | reflexivity].
  - intros Hno%Hnot Htab Husr. rewrite Hno, Htab, Husr. reflexivity.
  - reflexivity.
  - reflexivity.
Qed.

Lemma filters_precedence_witness :
  filtersToApply (Some ["ADMIN"])
    (FiltersArray [mkFilter "count" "==" (VNum 1)]) FiltersNull = []
  /\ filtersToApply (Some ["EDITOR"])
       (FiltersArray [mkFilter "count" "==" (VNum 1)])
       (FiltersArray [mkFilter "name" "==" (VStr "Bob")])
     = [mkFilter "count" "==" (VNum 1)].
Proof.
  split.
  - destruct (filters_precedence (mkFilter "" "" VUndefined) (Some ["ADMIN"])
                (FiltersArray [mkFilter "count" "==" (VNum 1)]) FiltersNull)
      as [_ [Hnull _]].
    apply Hnull; [|reflexivity].
    split; [|right; reflexivity].
    exists ["ADMIN"]. split; [reflexivity | left].
  - destruct (filters_precedence (mkFilter "" "" VUndefined) (Some ["EDITOR"])
                (FiltersArray [mkFilter "count" "==" (VNum 1)])
                (FiltersArray [mkFilter "name" "==" (VStr "Bob")]))
      as [_ [_ [Htable _]]].
    apply Htable; [|reflexivity|discriminate].
    intros [[roles [Hroles Hin]] _]. injection Hroles as <-.
    apply elem_of_cons in Hin as [Hin|Hin]; [discriminate Hin | inversion Hin].
Defined.

Lemma delete_local_or_remote_witness :
  dbWrites (effects (deleteRowAtom Example.store (inr ["rows/d"; "rows/s"])))
  = [DeleteRowDb "rows/s"]
  /\ localChanges (effects (deleteRowAtom Example.store (inr ["rows/d"; "rows/s"])))
     = [SetRowsLocal (LocalDelete "rows/d")].
Proof.
  destruct (delete_local_or_remote Example.store (inr ["rows/d"; "rows/s"]) eq_refl)
    as [Hdb [Hlocal _]].
  split; [exact Hdb | exact Hlocal].
Defined.




(** * Further properties *)

(** ** Paths *)

Lemma append_nil_r (s : string) : s +:+ "" = s.
Proof.
  induction s as [|c s IH]; [reflexivity|].
  change (String c (s +:+ "") = String c s). f_equal. exact IH.
Qed.

Lemma append_assoc (a b c : string) : (a +:+ b) +:+ c = a +:+ (b +:+ c).
Proof.
  induction a as [|x a IH]; [reflexivity|].
  change (String x ((a +:+ b) +:+ c) = String x (a +:+ (b +:+ c))).
  f_equal. exact IH.
Qed.

Lemma split_slash_aux_cons (s cur : string) :
  exists first rest, split_slash_aux s cur = first :: rest.
Proof.
  revert cur. induction s as [|c s IH]; intros cur; simpl.
  - exists cur, []. reflexivity.
  - destruct (Ascii.eqb c "/"); [exists cur; eexists; reflexivity | apply IH].
Qed.

Lemma join_split_aux (s cur : string) :
  join_slash (split_slash_aux s cur) = cur +:+ s.
Proof.
  revert cur. induction s as [|c s IH]; intros cur;
    cbn [split_slash_aux join_slash].
  - symmetry. apply append_nil_r.
  - destruct (Ascii.eqb c "/") eqn:Hc.
    + apply Ascii.eqb_eq in Hc. subst c.
      destruct (split_slash_aux_cons s "") as [first [rest Hsplit]].
      specialize (IH ""). rewrite Hsplit in *.
      change (cur +:+ "/" +:+ join_slash (first :: rest) = cur +:+ String "/" s).
      rewrite IH. reflexivity.
    + rewrite IH, append_assoc. reflexivity.
Qed.

(** X1: splitting a path at ["/"] and joining the segments with ["/"]
    gives the path back, and the split never yields an empty list. *)
Theorem join_split_roundtrip (s : string) :
  join_slash (split_slash s) = s /\ split_slash s <> [].
Proof.
  split.
  - unfold split_slash. rewrite join_split_aux. reflexivity.
  - unfold split_slash. destruct (split_slash_aux_cons s "") as [f [r ->]].
    discriminate.
Qed.

Lemma split_slash_aux_free (s cur : string) :
  slash_free s = true -> split_slash_aux s cur = [cur +:+ s].
Proof.
  revert cur. induction s as [|c s IH]; intros cur Hfree;
    cbn [split_slash_aux slash_free] in *.
  - rewrite append_nil_r. reflexivity.
  - apply andb_true_iff in Hfree as [Hc Hfree].
    apply negb_true_iff in Hc. rewrite Hc, (IH _ Hfree), append_assoc.
    reflexivity.
Qed.

Lemma split_slash_aux_app (a b cur : string) :
  split_slash_aux (a +:+ "/" +:+ b) cur
  = split_slash_aux a cur ++ split_slash_aux b "".
Proof.
  revert cur. induction a as [|c a IH]; intros cur; simpl.
  - reflexivity.
  - destruct (Ascii.eqb c "/"); rewrite IH; reflexivity.
Qed.

(** X2: [siblingPath] replaces the last segment of a path: for a name
    without ["/"], the sibling of [dir/name] with id [id] is [dir/id];
    a path that has no ["/"] at all has no directory, and its sibling is
    ["/"] followed by the id. *)
Theorem siblingPath_replaces_last (dir name id : string) :
  slash_free name = true ->
  siblingPath (dir +:+ "/" +:+ name) id = dir +:+ "/" +:+ id
  /\ siblingPath name id = "/" +:+ id.
Proof.
  intros Hfree. unfold siblingPath, split_slash, slice_init. split.
  - rewrite split_slash_aux_app, (split_slash_aux_free name "" Hfree). simpl.
    rewrite removelast_last.
    pose proof (join_split_aux dir "") as Hjoin. simpl in Hjoin.
    rewrite Hjoin. reflexivity.
  - rewrite (split_slash_aux_free name "" Hfree). reflexivity.
Qed.

Lemma siblingPath_replaces_last_witness :
  siblingPath "tables/users/u1" "u0" = "tables/users/u0"
  /\ siblingPath "u1" "u0" = "/u0".
Proof.
  exact (siblingPath_replaces_last "tables/users" "u1" "u0" eq_refl).
Defined.

(** ** The rows [addRowAtom] processes *)

Section ProcessedRows.
Context {U : TableUtils}.


End ProcessedRows.



(** ** The values of an added row *)

Section RowValues.
Context {U : TableUtils}.

Lemma filterStep_values (acc : obj * gset string) (f : TableFilter) :
  (filterStep acc f).1
  = if settable f then <[key f := filterInitial f]> acc.1 else acc.1.
Proof.
  unfold filterStep, settable, filterInitial.
  destruct (String.eqb (operator f) "=="); [reflexivity|].
  destruct (String.eqb (operator f) "array-contains"); reflexivity.
Qed.

Lemma fold_filterStep_frame (fs : list TableFilter) (acc : obj * gset string)
    (k : string) :
  (forall f, f ∈ fs -> key f = k -> settable f = false) ->
  (fold_left filterStep fs acc).1 !! k = acc.1 !! k.
Proof.
  revert acc. induction fs as [|f fs IH]; intros acc Hall; [reflexivity|].
  simpl. rewrite IH by (intros g Hg; apply Hall; right; exact Hg).
  rewrite filterStep_values.
  destruct (settable f) eqn:Hs; [|reflexivity].
  apply lookup_insert_ne. intros Hk.
  rewrite (Hall f (list_elem_of_here _ _) Hk) in Hs. discriminate.
Qed.

Lemma fold_filterStep_last (pre post : list TableFilter) (f : TableFilter)
    (acc : obj * gset string) :
  settable f = true ->
  (forall g, g ∈ post -> key g = key f -> settable g = false) ->
  (fold_left filterStep (pre ++ f :: post) acc).1 !! key f = Some (filterInitial f).
Proof.
  intros Hs Hpost. rewrite fold_left_app. simpl.
  rewrite (fold_filterStep_frame post _ (key f) Hpost), filterStep_values, Hs.
  apply lookup_insert_eq.
Qed.

Lemma defaultStep_spec (iv : obj) (c : Column) :
  defaultStep iv c = if hasDefault c then <[col_key c := defaultOf c]> iv else iv.
Proof.
  unfold defaultStep, hasDefault, defaultOf.
  destruct (config c) as [cfg|]; [|reflexivity].
  destruct (defaultValue cfg) as [dv|]; [|reflexivity].
  destruct (String.eqb (dv_type dv) "static"); [reflexivity|].
  destruct (String.eqb (dv_type dv) "null"); reflexivity.
Qed.

Lemma applyDefaults_frame (cols : list Column) (iv : obj) (k : string) :
  (forall c, c ∈ cols -> col_key c = k -> hasDefault c = false) ->
  applyDefaults cols iv !! k = iv !! k.
Proof.
  unfold applyDefaults. revert iv.
  induction cols as [|c cols IH]; intros iv Hall; [reflexivity|].
  simpl. rewrite IH by (intros d Hd; apply Hall; right; exact Hd).
  rewrite defaultStep_spec.
  destruct (hasDefault c) eqn:Hd; [|reflexivity].
  apply lookup_insert_ne. intros Hk.
  rewrite (Hall c (list_elem_of_here _ _) Hk) in Hd. discriminate.
Qed.

Lemma applyDefaults_last (pre post : list Column) (c : Column) (iv : obj) :
  hasDefault c = true ->
  (forall d, d ∈ post -> col_key d = col_key c -> hasDefault d = false) ->
  applyDefaults (pre ++ c :: post) iv !! col_key c = Some (defaultOf c).
Proof.
  intros Hc Hpost. unfold applyDefaults. rewrite fold_left_app. simpl.
  fold (applyDefaults post (defaultStep (fold_left defaultStep pre iv) c)).
  rewrite (applyDefaults_frame post _ (col_key c) Hpost), defaultStep_spec, Hc.
  apply lookup_insert_eq.
Qed.

Lemma writeAuditFields_frame (s : TableSettings) (u : User) (iv : obj) (k : string) :
  ~ auditWrites s k -> writeAuditFields s u iv !! k = iv !! k.
Proof.
  unfold auditWrites, writeAuditFields. intros Hno.
  destruct (auditEnabled s); [|reflexivity].
  rewrite !lookup_insert_ne; [reflexivity | |]; intros Hk; apply Hno; auto.
Qed.

Lemma rowValues_absent
    (tableFilters : list TableFilter) (tableColumnsOrdered : list Column)
    (s : TableSettings) (u : User) (row : TableRow) (k : string) :
  row_obj row !! k = None ->
  rowValues tableFilters tableColumnsOrdered s u row !! k
  = initialValues tableFilters tableColumnsOrdered s u row !! k.
Proof.
  intros Hnone. unfold rowValues, spread. apply lookup_union_r. exact Hnone.
Qed.

End RowValues.

(** X4: in the values computed for an added row (line 115), the object
    handed to [omitRowyFields] for the database write, the row itself
    wins: the reference is the row's own, whatever a filter, a column or
    an audit field name says, every own field of the row keeps its value,
    and only where the row has no property do the initial values show.
    The row dispatched to the local rows (lines 132-138) is these values
    with [_rowy_outOfOrder] replaced by the computed flag, whatever the
    row's own [_rowy_outOfOrder] is; under every other key it holds the
    same. *)
Theorem rowValues_row_wins {U : TableUtils}
    (tableFilters : list TableFilter) (tableColumnsOrdered : list Column)
    (s : TableSettings) (u : User) (setId : option SetId) (row : TableRow) :
  let values := rowValues tableFilters tableColumnsOrdered s u row in
  let stored := localRow tableFilters tableColumnsOrdered s u setId row in
  values !! "_rowy_ref" = Some (ref_value (_rowy_ref row))
  /\ (forall k v, k <> "_rowy_ref" -> fields row !! k = Some v ->
                  values !! k = Some v)
  /\ (forall k, k <> "_rowy_ref" -> fields row !! k = None ->
                values !! k
                = initialValues tableFilters tableColumnsOrdered s u row !! k)
  /\ stored !! "_rowy_outOfOrder"
     = Some (VBool (outOfOrder tableFilters setId row))
  /\ (forall k, k <> "_rowy_outOfOrder" -> stored !! k = values !! k).
Proof.
  intros values stored. unfold stored, localRow. fold values.
  unfold values, rowValues, spread, row_obj.
  split; [|split; [|split; [|split]]].
  - apply lookup_union_Some_l, lookup_insert_eq.
  - intros k v Hk Hv. apply lookup_union_Some_l.
    rewrite lookup_insert_ne by congruence. exact Hv.
  - intros k Hk Hnone. apply lookup_union_r.
    rewrite lookup_insert_ne by congruence. exact Hnone.
  - apply lookup_insert_eq.
  - intros k Hk. apply lookup_insert_ne. congruence.
Qed.

Lemma rowValues_row_wins_witness :
  rowValues (U := Sample.utils) [mkFilter "count" "==" (VNum 7)] []
    Example.settings Example.user Example.counted !! "count"
  = Some (VNum 1)
  /\ localRow (U := Sample.utils) [mkFilter "count" "==" (VNum 7)] []
       Example.settings Example.user None Example.counted !! "count"
     = Some (VNum 1).
Proof.
  destruct (rowValues_row_wins (U := Sample.utils)
              [mkFilter "count" "==" (VNum 7)] [] Example.settings Example.user
              None Example.counted) as [_ [Hown [_ [_ Hstored]]]].
  split.
  - apply Hown; [discriminate | reflexivity].
  - rewrite Hstored by discriminate. apply Hown; [discriminate | reflexivity].
Defined.

(** X5: the values computed for an added row (line 115) hold nothing of
    [addRowAtom]'s own beyond the reference, the keys of [==] and
    [array-contains] filters, the keys of columns with a default and the
    audit fields in use: under any other key the initial values have
    nothing and the values are the row's own field, present or not.  The
    row dispatched to the local rows has one more key of
    [addRowAtom]'s own, [_rowy_outOfOrder]; under any other key than
    these it too holds the row's own field. *)
Theorem rowValues_adds_nothing_else {U : TableUtils}
    (tableFilters : list TableFilter) (tableColumnsOrdered : list Column)
    (s : TableSettings) (u : User) (setId : option SetId) (row : TableRow)
    (k : string) :
  k <> "_rowy_ref" ->
  (forall f, f ∈ tableFilters -> key f = k -> settable f = false) ->
  (forall c, c ∈ tableColumnsOrdered -> col_key c = k -> hasDefault c = false) ->
  ~ auditWrites s k ->
  initialValues tableFilters tableColumnsOrdered s u row !! k = None
  /\ rowValues tableFilters tableColumnsOrdered s u row !! k = fields row !! k
  /\ (k <> "_rowy_outOfOrder" ->
      localRow tableFilters tableColumnsOrdered s u setId row !! k
      = fields row !! k).
Proof.
  intros Hk Hfilters Hcols Haudit.
  assert (Hinit : initialValues tableFilters tableColumnsOrdered s u row !! k = None).
  { unfold initialValues, applyFilters.
    rewrite writeAuditFields_frame by exact Haudit.
    rewrite applyDefaults_frame by exact Hcols.
    rewrite fold_filterStep_frame by exact Hfilters.
    simpl. apply lookup_singleton_ne. congruence. }
  assert (Hvalues : rowValues tableFilters tableColumnsOrdered s u row !! k
                    = fields row !! k).
  { unfold rowValues, spread, row_obj.
    destruct (fields row !! k) as [v|] eqn:Hv.
    - apply lookup_union_Some_l. rewrite lookup_insert_ne by congruence. exact Hv.
    - rewrite lookup_union_r by (rewrite lookup_insert_ne by congruence; exact Hv).
      exact Hinit. }
  split; [exact Hinit|]. split; [exact Hvalues|].
  intros Hflag. unfold localRow. rewrite lookup_insert_ne by congruence.
  exact Hvalues.
Qed.

Lemma rowValues_adds_nothing_else_witness :
  rowValues (U := Sample.utils) Example.twoFilters Example.columns
    Example.settings Example.user Example.counted !! "name" = None
  /\ localRow (U := Sample.utils) Example.twoFilters Example.columns
       Example.settings Example.user None Example.counted !! "name" = None.
Proof.
  assert (Hname : rowValues (U := Sample.utils) Example.twoFilters Example.columns
                    Example.settings Example.user Example.counted !! "name"
                  = fields Example.counted !! "name"
                  /\ ("name" <> "_rowy_outOfOrder" ->
                      localRow (U := Sample.utils) Example.twoFilters
                        Example.columns Example.settings Example.user None
                        Example.counted !! "name"
                      = fields Example.counted !! "name")).
  { refine (proj2 (rowValues_adds_nothing_else (U := Sample.utils)
                     Example.twoFilters Example.columns Example.settings
                     Example.user None Example.counted "name" _ _ _ _)).
    - discriminate.
    - intros f Hf Hkey. unfold Example.twoFilters in Hf.
      repeat (apply elem_of_cons in Hf as [->|Hf]; [discriminate Hkey|]).
      inversion Hf.
    - intros c Hc _. unfold Example.columns in Hc.
      apply elem_of_cons in Hc as [->|Hc]; [reflexivity | inversion Hc].
    - intros [_ [Hname | Hname]]; discriminate Hname. }
  destruct Hname as [Hvalues Hstored].
  split; [exact Hvalues | apply Hstored; discriminate].
Defined.

(** X6: a row added under an [==] or [array-contains] filter gets the
    value of that filter (the value itself, or the one-element array of
    it) under the filter's key, when no later filter of these two kinds
    has the same key, no column with that key sets a default, the key is
    not an audit field in use, and the row has no property of that name. *)
Theorem filter_value_reaches_row {U : TableUtils}
    (pre post : list TableFilter) (f : TableFilter)
    (tableColumnsOrdered : list Column)
    (s : TableSettings) (u : User) (row : TableRow) :
  settable f = true ->
  (forall g, g ∈ post -> key g = key f -> settable g = false) ->
  (forall c, c ∈ tableColumnsOrdered -> col_key c = key f -> hasDefault c = false) ->
  ~ auditWrites s (key f) ->
  row_obj row !! key f = None ->
  rowValues (pre ++ f :: post) tableColumnsOrdered s u row !! key f
  = Some (filterInitial f).
Proof.
  intros Hs Hpost Hcols Haudit Hrow.
  rewrite rowValues_absent by exact Hrow.
  unfold initialValues, applyFilters.
  rewrite writeAuditFields_frame by exact Haudit.
  rewrite applyDefaults_frame by exact Hcols.
  apply fold_filterStep_last; assumption.
Qed.

Lemma filter_value_reaches_row_witness :
  rowValues (U := Sample.utils)
    ([] ++ mkFilter "tags" "array-contains" (VStr "new")
        :: [mkFilter "count" ">" (VNum 0)])
    Example.columns Example.settings Example.user Example.unnamed !! "tags"
  = Some (VArr [VStr "new"]).
Proof.
  apply (filter_value_reaches_row (U := Sample.utils) []
           [mkFilter "count" ">" (VNum 0)]
           (mkFilter "tags" "array-contains" (VStr "new"))
           Example.columns Example.settings Example.user Example.unnamed).
  - reflexivity.
  - intros g Hg Hkey.
    apply elem_of_cons in Hg as [->|Hg]; [discriminate Hkey | inversion Hg].
  - intros c Hc Hkey. unfold Example.columns in Hc.
    apply elem_of_cons in Hc as [->|Hc]; [discriminate Hkey | inversion Hc].
  - intros [_ [Hname | Hname]]; discriminate Hname.
  - reflexivity.
Defined.

(** X7: a column default takes precedence over the filters: the last
    column with a given key that sets a default decides the value of that
    key in an added row, whatever the filters write there, unless the key
    is an audit field in use or the row has a property of that name. *)
Theorem default_overrides_filters {U : TableUtils}
    (tableFilters : list TableFilter) (pre post : list Column) (c : Column)
    (s : TableSettings) (u : User) (row : TableRow) :
  hasDefault c = true ->
  (forall d, d ∈ post -> col_key d = col_key c -> hasDefault d = false) ->
  ~ auditWrites s (col_key c) ->
  row_obj row !! col_key c = None ->
  rowValues tableFilters (pre ++ c :: post) s u row !! col_key c
  = Some (defaultOf c).
Proof.
  intros Hc Hpost Haudit Hrow.
  rewrite rowValues_absent by exact Hrow.
  unfold initialValues.
  rewrite writeAuditFields_frame by exact Haudit.
  apply applyDefaults_last; assumption.
Qed.

Lemma default_overrides_filters_witness :
  rowValues (U := Sample.utils) [mkFilter "count" "==" (VNum 7)]
    ([] ++ mkColumn "count" (Some (mkConfig None (Some (mkDefault "static" (VNum 0)))))
        :: [])
    Example.settings Example.user Example.unnamed !! "count"
  = Some (VNum 0).
Proof.
  apply (default_overrides_filters (U := Sample.utils)
           [mkFilter "count" "==" (VNum 7)] [] []
           (mkColumn "count" (Some (mkConfig None (Some (mkDefault "static" (VNum 0))))))
           Example.settings Example.user Example.unnamed).
  - reflexivity.
  - intros d Hd. inversion Hd.
  - intros [_ [Hname | Hname]]; discriminate Hname.
  - reflexivity.
Defined.

(** ** Where [updateFieldAtom] writes *)

Lemma find_by_path_path (rows : list TableRow) (p : string) (r : TableRow) :
  find_by_path rows p = Some r -> ref_path (_rowy_ref r) = p /\ r ∈ rows.
Proof.
  unfold find_by_path. intros Hfind. apply find_some in Hfind as [Hin Heq].
  split; [apply String.eqb_eq; exact Heq | apply list_elem_of_In; exact Hin].
Qed.

(** X8: a call of [updateFieldAtom] that is carried out writes to the path
    it was given.  For a row that is not local it makes one database call
    with the update alone and changes no local row; for a local row it
    dispatches the update to the local rows, and also writes the whole
    updated row to the database when no required field is missing or
    [ignoreRequiredFields] is set, and makes no database call otherwise. *)
Theorem update_routes_write {U : TableUtils} {L : Lodash}
    (st : Store) (o : IUpdateFieldOptions)
    (s : TableSettings) (u : User) (row : TableRow) :
  _updateRowDbAtom st = true ->
  tableSettingsAtom st = Some s ->
  currentUserAtom st = Some u ->
  find_by_path (tableRowsAtom st) (path o) = Some row ->
  skipUpdate row o = false ->
  let events := effects (updateFieldAtom st o) in
  let update := composeUpdate s u o in
  let whole :=
    if deleteField o
    then unset (updateRowData (row_obj row) update) (fieldName o)
    else updateRowData (row_obj row) update in
  (isLocalRow st (path o) = false ->
   dbWrites events
   = [UpdateRowDb (path o) (omitRowyFields update) (Some (deleteFieldsOf o))]
   /\ localChanges events = [])
  /\ (isLocalRow st (path o) = true ->
      localChanges events
      = [SetRowsLocal (LocalUpdate (path o) update (deleteFieldsOf o))]
      /\ (ignoreRequired o = true
          \/ requiredPresent (tableColumnsOrderedAtom st) (row_obj row) ->
          dbWrites events
          = [UpdateRowDb (path o) (omitRowyFields whole) (Some (deleteFieldsOf o))])
      /\ (ignoreRequired o = false
          /\ requiredMissing (tableColumnsOrderedAtom st) (row_obj row) ->
          dbWrites events = [])).
Proof.
  intros Hdb Hs Hu Hrow Hskip events update whole.
  destruct (find_by_path_path _ _ _ Hrow) as [Hpath _].
  unfold events. rewrite (updateFieldAtom_run st o s u row Hdb Hs Hu Hrow), Hskip.
  simpl. rewrite dbWrites_app, localChanges_app.
  assert (Hlog : dbWrites (if auditChangeAtom st
                           then [AuditChange UPDATE_CELL (path o) (Some (fieldName o))]
                           else []) = []
                 /\ localChanges (if auditChangeAtom st
                                  then [AuditChange UPDATE_CELL (path o)
                                          (Some (fieldName o))]
                                  else []) = [])
    by (destruct (auditChangeAtom st); split; reflexivity).
  destruct Hlog as [-> ->]. rewrite !app_nil_r.
  unfold updateWrites, isLocalRow. rewrite Hpath. fold update.
  split.
  - intros ->. split; reflexivity.
  - intros ->. split; [|split].
    + destruct (is_empty _); reflexivity.
    + intros Hcomplete.
      assert (Hempty : is_empty (missingRequiredFields (ignoreRequired o)
                                   (tableColumnsOrderedAtom st) (row_obj row))
                       = true).
      { destruct (ignoreRequired o); [reflexivity|].
        apply is_empty_nil, missing_nil_iff.
        destruct Hcomplete as [Hign|Hpresent]; [discriminate | exact Hpresent]. }
      rewrite Hempty. reflexivity.
    + intros [Hign Hmissing]. rewrite Hign.
      destruct (is_empty _) eqn:Hempty; [|reflexivity].
      exfalso. apply required_missing_iff in Hmissing. apply Hmissing.
      apply missing_nil_iff, is_empty_nil. exact Hempty.
Qed.

Lemma update_routes_write_witness :
  dbWrites
    (effects (updateFieldAtom (U := Sample.utils) (L := Sample.lodash)
                Example.store Example.newCount))
  = [UpdateRowDb "rows/s"
       (@omitRowyFields Sample.utils
          (composeUpdate (U := Sample.utils) (L := Sample.lodash)
             Example.settings Example.user Example.newCount))
       (Some [])]
  /\ localChanges
       (effects (updateFieldAtom (U := Sample.utils) (L := Sample.lodash)
                   Example.store Example.newCount)) = [].
Proof.
  exact (proj1 (update_routes_write (U := Sample.utils) (L := Sample.lodash)
                  Example.store Example.newCount Example.settings Example.user
                  Example.saved eq_refl eq_refl eq_refl eq_refl eq_refl)
           eq_refl).
Defined.

(** X9: when [deleteField] is set, [updateFieldAtom] ignores the value and
    the equality check: the outcome is the same for every value and for
    either setting of [disableCheckEquality], and the call is never ended
    by the equality check. *)
Theorem update_delete_ignores_value {U : TableUtils} {L : Lodash}
    (st : Store) (p field : string) (v v' : value) (ignore check check' : bool)
    (row : TableRow) :
  updateFieldAtom st (mkUpdateOptions p field v true ignore check)
  = updateFieldAtom st (mkUpdateOptions p field v' true ignore check')
  /\ skipUpdate row (mkUpdateOptions p field v true ignore check) = false.
Proof.
  split; [|reflexivity].
  unfold updateFieldAtom, skipUpdate, composeUpdate, deleteFieldsOf. simpl.
  reflexivity.
Qed.

(** ** What the atoms do in what order, and what they leave alone *)

Section Orders.
Context {U : TableUtils} {L : Lodash}.

Lemma single_add_order
    (tableFilters : list TableFilter) (tableColumnsOrdered : list Column)
    (s : TableSettings) (u : User) (auditChange ignore : bool)
    (setId : option SetId) (r : TableRow) :
  localThenDbThenAudit
    (await (_addSingleRowAndAudit tableFilters tableColumnsOrdered s u
              auditChange ignore setId r)).
Proof.
  unfold localThenDbThenAudit, _addSingleRowAndAudit, await.
  destruct (is_empty _), auditChange; simpl;
    repeat match goal with |- context [if ?b then _ else _] => destruct b end;
    reflexivity.
Qed.

Lemma single_delete_order (auditChange : bool) (rowsLocal : list TableRow)
    (p : string) :
  localThenDbThenAudit (await (_deleteSingleRowAndAudit auditChange rowsLocal p)).
Proof.
  unfold localThenDbThenAudit, _deleteSingleRowAndAudit, await.
  destruct (found _), auditChange; reflexivity.
Qed.

Lemma bulk_audit_kinds (ops : list BulkWriteOperation) :
  let entries :=
    map (fun operation => AuditChange ADD_ROW (op_path operation) None) ops in
  localChanges entries = [] /\ dbWrites entries = []
  /\ auditEntries entries = entries.
Proof.
  induction ops as [|op ops [IH1 [IH2 IH3]]]; [repeat split|].
  split; [exact IH1|]. split; [exact IH2|].
  simpl. f_equal. exact IH3.
Qed.

End Orders.

(** X10: a call for one row, one path or one field performs its events in
    a fixed order: the change of the local rows first, then the database
    call, then the audit entry; [bulkAddRowsAtom] makes its bulk write
    before any audit entry. *)
Theorem single_calls_local_db_audit {U : TableUtils} {L : Lodash} (st : Store) :
  (forall (r : TableRow) (ignore : bool) (setId : option SetId),
     localThenDbThenAudit
       (effects (addRowAtom st (mkAddOptions (inl r) ignore setId))))
  /\ (forall p : string, localThenDbThenAudit (effects (deleteRowAtom st (inl p))))
  /\ (forall o : IUpdateFieldOptions,
        localThenDbThenAudit (effects (updateFieldAtom st o)))
  /\ (forall o : IBulkAddRowsOptions,
        localThenDbThenAudit (effects (bulkAddRowsAtom st o))).
Proof.
  split; [|split; [|split]].
  - intros r ignore setId. unfold addRowAtom.
    destruct (_updateRowDbAtom st); [|reflexivity].
    destruct (tableSettingsAtom st) as [s|]; [|reflexivity].
    destruct (currentUserAtom st) as [u|]; [|reflexivity].
    simpl. apply single_add_order.
  - intros p. unfold deleteRowAtom.
    destruct (_deleteRowDbAtom st); [|reflexivity].
    simpl. apply single_delete_order.
  - intros o. unfold updateFieldAtom.
    destruct (_updateRowDbAtom st); [|reflexivity].
    destruct (tableSettingsAtom st) as [s|]; [|reflexivity].
    destruct (currentUserAtom st) as [u|]; [|reflexivity].
    destruct (find_by_path (tableRowsAtom st) (path o)) as [row|]; [|reflexivity].
    simpl. destruct (skipUpdate row o); [reflexivity|].
    unfold localThenDbThenAudit. simpl.
    destruct (found _); [destruct (is_empty _)|];
      destruct (auditChangeAtom st); reflexivity.
  - intros o. unfold bulkAddRowsAtom.
    destruct (_bulkWriteDbAtom st); [|reflexivity].
    destruct (tableSettingsAtom st) as [s|]; [|reflexivity].
    destruct (currentUserAtom st) as [u|]; [|reflexivity].
    unfold localThenDbThenAudit. simpl.
    destruct (auditChangeAtom st); [|reflexivity].
    f_equal.
    generalize (bulkOperations
                  (bulkInitialValues (tableColumnsOrderedAtom st) s u)
                  (collection o) 0 (rows o)).
    intros ops. destruct (bulk_audit_kinds ops) as [Hlocal [Hdb Haudit]].
    fold (dbWrites (map (fun operation => AuditChange ADD_ROW (op_path operation) None) ops)).
    fold (localChanges (map (fun operation => AuditChange ADD_ROW (op_path operation) None) ops)).
    fold (auditEntries (map (fun operation => AuditChange ADD_ROW (op_path operation) None) ops)).
    rewrite Hlocal, Hdb, Haudit. reflexivity.
Qed.

(** X11: empty arrays.  [addRowAtom] and [deleteRowAtom] given an empty
    array return without any event; [bulkAddRowsAtom] given no rows still
    calls the bulk write function once, with no operations, and records no
    audit entry. *)
Theorem empty_arrays {U : TableUtils} (st : Store) :
  (_updateRowDbAtom st = true ->
   tableSettingsAtom st <> None ->
   currentUserAtom st <> None ->
   forall (ignore : bool) (setId : option SetId),
     addRowAtom st (mkAddOptions (inr []) ignore setId) = finish [])
  /\ (_deleteRowDbAtom st = true -> deleteRowAtom st (inr []) = finish [])
  /\ (_bulkWriteDbAtom st = true ->
      tableSettingsAtom st <> None ->
      currentUserAtom st <> None ->
      forall c : string,
        bulkAddRowsAtom st (mkBulkOptions [] c) = finish [BulkWriteDb []]).
Proof.
  split; [|split].
  - intros Hdb Hs Hu ignore setId. unfold addRowAtom. rewrite Hdb.
    destruct (tableSettingsAtom st); [|congruence].
    destruct (currentUserAtom st); [|congruence].
    reflexivity.
  - intros Hdb. unfold deleteRowAtom. rewrite Hdb. reflexivity.
  - intros Hdb Hs Hu c. unfold bulkAddRowsAtom. rewrite Hdb.
    destruct (tableSettingsAtom st); [|congruence].
    destruct (currentUserAtom st); [|congruence].
    simpl. destruct (auditChangeAtom st); reflexivity.
Qed.

Lemma empty_arrays_witness :
  addRowAtom (U := Sample.utils) Example.store (mkAddOptions (inr []) false None)
  = finish []
  /\ deleteRowAtom Example.store (inr []) = finish []
  /\ bulkAddRowsAtom (U := Sample.utils) Example.store (mkBulkOptions [] "rows")
     = finish [BulkWriteDb []].
Proof.
  destruct (empty_arrays (U := Sample.utils) Example.store) as [Hadd [Hdel Hbulk]].
  split; [|split].
  - apply Hadd; [reflexivity | discriminate | discriminate].
  - apply Hdel. reflexivity.
  - apply Hbulk; [reflexivity | discriminate | discriminate].
Defined.

Section NoAudit.
Context {U : TableUtils} {L : Lodash}.

Lemma concat_map_nil {A} (xs : list A) :
  concat (map (fun _ : A => @nil Event) xs) = [].
Proof. induction xs as [|x xs IH]; [reflexivity | exact IH]. Qed.

Lemma tasks_without_audit {A} (single : A -> Task) (xs : list A) :
  (forall x, auditEntries (await (single x)) = []) ->
  auditEntries (promise_all (map single xs)) = [].
Proof.
  intros Hnone. apply Permutation_nil. symmetry.
  etransitivity; [apply filter_perm, promise_all_perm|].
  rewrite eachInTurn_map. unfold auditEntries in *. rewrite filter_eachInTurn.
  rewrite (map_ext_eq _ (fun _ => [])) by exact Hnone.
  rewrite concat_map_nil. reflexivity.
Qed.

End NoAudit.

(** X12: when no audit function is configured, no write function records
    an audit entry, whatever it is given. *)
Theorem no_audit_function_no_entries {U : TableUtils} {L : Lodash} (st : Store) :
  auditChangeAtom st = false ->
  (forall o : IAddRowOptions, auditEntries (effects (addRowAtom st o)) = [])
  /\ (forall path : string + list string,
        auditEntries (effects (deleteRowAtom st path)) = [])
  /\ (forall o : IBulkAddRowsOptions,
        auditEntries (effects (bulkAddRowsAtom st o)) = [])
  /\ (forall o : IUpdateFieldOptions,
        auditEntries (effects (updateFieldAtom st o)) = []).
Proof.
  intros Hoff. split; [|split; [|split]].
  - intros o.
    destruct (thrown (addRowAtom st o)) as [msg|] eqn:Hret.
    + revert Hret. unfold addRowAtom.
      destruct (_updateRowDbAtom st); [|reflexivity].
      destruct (tableSettingsAtom st); [|reflexivity].
      destruct (currentUserAtom st); [|reflexivity].
      destruct (row o); discriminate.
    + apply addRowAtom_returns in Hret as [Hdb [s [u [Hs Hu]]]].
      rewrite (addRowAtom_run st o s u Hdb Hs Hu). simpl.
      apply tasks_without_audit. intros r.
      rewrite single_auditEntries, Hoff. reflexivity.
  - intros path. destruct (_deleteRowDbAtom st) eqn:Hdb.
    + rewrite (deleteRowAtom_run st path Hdb). simpl.
      apply tasks_without_audit. intros p.
      rewrite delete_single_auditEntries, Hoff. reflexivity.
    + rewrite (deleteRowAtom_unset st path Hdb). reflexivity.
  - intros o. unfold bulkAddRowsAtom.
    destruct (_bulkWriteDbAtom st); [|reflexivity].
    destruct (tableSettingsAtom st); [|reflexivity].
    destruct (currentUserAtom st); [|reflexivity].
    rewrite Hoff. reflexivity.
  - intros o. unfold updateFieldAtom.
    destruct (_updateRowDbAtom st); [|reflexivity].
    destruct (tableSettingsAtom st); [|reflexivity].
    destruct (currentUserAtom st); [|reflexivity].
    destruct (find_by_path (tableRowsAtom st) (path o)); [|reflexivity].
    simpl. destruct (skipUpdate _ o); [reflexivity|].
    rewrite Hoff. simpl. rewrite app_nil_r.
    destruct (found _); [destruct (is_empty _)|]; reflexivity.
Qed.

Lemma no_audit_function_no_entries_witness :
  auditEntries
    (effects (deleteRowAtom
                (mkStore true true true false (Some Example.settings)
                   (Some Example.user) [] Example.columns [Example.saved]
                   [Example.draft] [Example.draft; Example.saved])
                (inr ["rows/d"; "rows/s"])))
  = [].
Proof.
  exact (proj1 (proj2 (no_audit_function_no_entries (U := Sample.utils)
                         (L := Sample.lodash)
                         (mkStore true true true false (Some Example.settings)
                            (Some Example.user) [] Example.columns [Example.saved]
                            [Example.draft] [Example.draft; Example.saved])
                         eq_refl))
           (inr ["rows/d"; "rows/s"])).
Defined.

(** ** The apply button and the override flag of [Filters] *)

Lemma typeof_undefined (v : value) :
  String.eqb (typeof v) "undefined" = true <-> v = VUndefined.
Proof. destruct v; simpl; split; congruence. Qed.

(** X13: the apply button is never disabled for [null], a boolean, a
    number, an array or an object, whatever [isEmpty] says of them; with
    an [isEmpty] that holds of [undefined] and of the empty string only
    among strings, it is disabled exactly for [undefined] and for the
    empty string. *)
Theorem apply_button_disabled_iff (_isEmpty : value -> bool) (v : value) :
  (shouldDisableApplyButton _isEmpty v = true ->
   v = VUndefined \/ exists s, v = VStr s)
  /\ (_isEmpty VUndefined = true ->
      (forall s, _isEmpty (VStr s) = true <-> s = "") ->
      (shouldDisableApplyButton _isEmpty v = true
       <-> v = VUndefined \/ v = VStr "")).
Proof.
  unfold shouldDisableApplyButton. split.
  - destruct v; simpl; rewrite ?andb_false_r; intros Hd;
      try discriminate; [left; reflexivity | right; eexists; reflexivity].
  - intros Hundef Hstr.
    destruct v; simpl; rewrite ?andb_false_r, ?andb_true_r;
      try (split; [discriminate | intros [Hv|Hv]; discriminate Hv]).
    + rewrite Hundef. split; [left; reflexivity | reflexivity].
    + rewrite Hstr. split.
      * intros ->. right. reflexivity.
      * intros [Hv|Hv]; [discriminate Hv | congruence].
Qed.

Lemma apply_button_disabled_iff_witness :
  shouldDisableApplyButton MenuSample.isEmpty (VStr "") = true
  /\ ~ shouldDisableApplyButton MenuSample.isEmpty (VNum 0) = true.
Proof.
  split.
  - apply (proj2 (apply_button_disabled_iff MenuSample.isEmpty (VStr ""))).
    + reflexivity.
    + intros s. apply String.eqb_eq.
    + right. reflexivity.
  - intros Hd.
    destruct (proj1 (apply_button_disabled_iff MenuSample.isEmpty (VNum 0)) Hd)
      as [Hv | [s Hv]]; discriminate Hv.
Defined.

(** X14: the flag that marks the table filters as overridden agrees with
    the filters the effect applies: when it is set the user is an admin,
    the table has filters and the user filters are applied; when the
    table has filters and it is not set the table filters are applied;
    and the table tab is shown first exactly when the table has filters
    that are not overridden, the filters then applied being the table's. *)
Theorem override_flag_matches_filters
    (userClaims : option (list string)) (tableFilters userFilters : FiltersProp) :
  let chosen := filtersToApply userClaims tableFilters userFilters in
  let overridden := tableFiltersOverridden userClaims tableFilters userFilters in
  (overridden = true ->
   hasAdminRole userClaims /\ hasFilters tableFilters = true
   /\ chosen = filtersOrEmpty userFilters)
  /\ (hasFilters tableFilters = true -> overridden = false ->
      chosen = filtersOrEmpty tableFilters)
  /\ (initialTab userClaims tableFilters userFilters = tableTab
      <-> hasFilters tableFilters = true /\ overridden = false)
  /\ (initialTab userClaims tableFilters userFilters = tableTab ->
      chosen = filtersOrEmpty tableFilters /\ chosen <> []).
Proof.
  intros chosen overridden.
  assert (Hnot : hasFilters tableFilters = true -> overridden = false ->
                 chosen = filtersOrEmpty tableFilters).
  { unfold overridden, tableFiltersOverridden, chosen, filtersToApply, isNullFilters.
    intros -> Hover. rewrite andb_true_r in Hover. rewrite Hover. reflexivity. }
  assert (Htab : initialTab userClaims tableFilters userFilters = tableTab
                 <-> hasFilters tableFilters = true /\ overridden = false).
  { unfold initialTab. fold overridden.
    destruct (hasFilters tableFilters), overridden; simpl;
      intuition congruence. }
  split; [|split; [exact Hnot | split; [exact Htab|]]].
  - unfold overridden, tableFiltersOverridden, chosen, filtersToApply, isNullFilters.
    intros Hover. apply andb_true_iff in Hover as [Hover Htable].
    rewrite Hover. apply andb_true_iff in Hover as [Hadmin _].
    apply isAdmin_spec in Hadmin. repeat split; assumption.
  - intros [Htable Hover]%Htab. split; [apply Hnot; assumption|].
    rewrite (Hnot Htable Hover). destruct tableFilters as [| |[|f fs]];
      try discriminate Htable. discriminate.
Qed.

Lemma override_flag_matches_filters_witness :
  filtersToApply (Some ["ADMIN"])
    (FiltersArray [mkFilter "count" "==" (VNum 1)]) FiltersNull = []
  /\ filtersToApply (Some ["EDITOR"])
       (FiltersArray [mkFilter "count" "==" (VNum 1)]) FiltersNull
     = [mkFilter "count" "==" (VNum 1)].
Proof.
  split.
  - exact (proj2 (proj2 (proj1 (override_flag_matches_filters (Some ["ADMIN"])
                                  (FiltersArray [mkFilter "count" "==" (VNum 1)])
                                  FiltersNull) eq_refl))).
  - exact (proj1 (proj2 (proj2 (proj2 (override_flag_matches_filters
                                         (Some ["EDITOR"])
                                         (FiltersArray [mkFilter "count" "==" (VNum 1)])
                                         FiltersNull))) eq_refl)).
Defined.

(** ** The cell context menu *)

Section MenuFacts.
Context {L : Lodash} {E : MenuEnv}.
Variables (ctx : MenuContext) (clip : Clipboard)
          (r : option MenuRow) (c : MenuColumn).

Lemma handleClose_changes_nothing :
  List.filter isCellChange (handleClose ctx) = []
  /\ List.filter isSnackbar (handleClose ctx) = [].
Proof. unfold handleClose. destruct (reset ctx); split; reflexivity. Qed.

Lemma handleCut_changes :
  List.filter isCellChange (handleCut ctx clip r c)
  = match written clip with
    | None =>
        if negb (String.eqb (typeof (cellValue r c)) "undefined") && deleteCell ctx
        then [DeleteCell (mr_ref <$> r) (mc_key c)]
        else []
    | Some _ => []
    end.
Proof.
  unfold handleCut. simpl. rewrite List.filter_app.
  rewrite (proj1 handleClose_changes_nothing), app_nil_r.
  destruct (written clip); [reflexivity|].
  destruct (negb _ && _); reflexivity.
Qed.

Lemma handleCut_snackbars :
  List.filter isSnackbar (handleCut ctx clip r c)
  = match written clip with
    | None => []
    | Some error => [EnqueueSnackbar ("Failed to cut: " +:+ error) "error"]
    end.
Proof.
  unfold handleCut. simpl. rewrite List.filter_app.
  rewrite (proj2 handleClose_changes_nothing), app_nil_r.
  destruct (written clip); [reflexivity|].
  destruct (negb _ && _); reflexivity.
Qed.

Lemma handlePaste_changes :
  List.filter isCellChange (handlePaste ctx clip r c)
  = match readText clip with
    | inl text =>
        match parsePasted c text with
        | inl parsed =>
            if updateCell ctx
            then [UpdateCell (mr_ref <$> r) (mc_key c) parsed] else []
        | inr _ => []
        end
    | inr _ => []
    end.
Proof.
  unfold handlePaste. simpl. rewrite List.filter_app.
  rewrite (proj1 handleClose_changes_nothing), app_nil_r.
  destruct (readText clip) as [text|]; [|reflexivity].
  destruct (parsePasted c text); [destruct (updateCell ctx)|]; reflexivity.
Qed.

Lemma handlePaste_snackbars :
  List.filter isSnackbar (handlePaste ctx clip r c)
  = match readText clip with
    | inl text =>
        match parsePasted c text with
        | inl _ => []
        | inr error => [EnqueueSnackbar ("Failed to paste: " +:+ error) "error"]
        end
    | inr error => [EnqueueSnackbar ("Failed to paste: " +:+ error) "error"]
    end.
Proof.
  unfold handlePaste. simpl. rewrite List.filter_app.
  rewrite (proj2 handleClose_changes_nothing), app_nil_r.
  destruct (readText clip) as [text|]; [|reflexivity].
  destruct (parsePasted c text); [destruct (updateCell ctx)|]; reflexivity.
Qed.

End MenuFacts.

(** X15: every menu action closes the menu last, whether it succeeded or
    failed: the events of copy, cut and paste are those of the action
    itself, none of them a reset, followed by the call of [reset] when
    one was given. *)
Theorem menu_actions_close_last {L : Lodash} {E : MenuEnv}
    (ctx : MenuContext) (clip : Clipboard) (r : option MenuRow) (c : MenuColumn) :
  (exists body, handleCopy ctx clip r c = body ++ handleClose ctx
                /\ ResetMenu ∉ body)
  /\ (exists body, handleCut ctx clip r c = body ++ handleClose ctx
                   /\ ResetMenu ∉ body)
  /\ (exists body, handlePaste ctx clip r c = body ++ handleClose ctx
                   /\ ResetMenu ∉ body)
  /\ handleClose ctx = if reset ctx then [ResetMenu] else [].
Proof.
  assert (Hno : forall body : list MenuEvent,
            List.filter (fun e => match e with ResetMenu => true | _ => false end)
              body = [] -> ResetMenu ∉ body).
  { intros body Hnone Hin.
    apply list_elem_of_In in Hin.
    assert (Hin' : In ResetMenu
              (List.filter (fun e => match e with ResetMenu => true | _ => false end)
                 body)) by (apply filter_In; split; [exact Hin | reflexivity]).
    rewrite Hnone in Hin'. inversion Hin'. }
  split; [|split; [|split]].
  - eexists. split; [unfold handleCopy; rewrite app_comm_cons; reflexivity|].
    apply Hno. simpl. destruct (written clip); reflexivity.
  - eexists. split; [unfold handleCut; rewrite app_comm_cons; reflexivity|].
    apply Hno. simpl. destruct (written clip); [reflexivity|].
    destruct (negb _ && _); reflexivity.
  - eexists. split; [unfold handlePaste; rewrite app_comm_cons; reflexivity|].
    apply Hno. simpl. destruct (readText clip) as [text|]; [|reflexivity].
    destruct (parsePasted c text); [destruct (updateCell ctx)|]; reflexivity.
  - reflexivity.
Qed.

(** X16: cut deletes the cell, of the selected row and column, exactly
    when the clipboard took the value, the value is not [undefined] and a
    delete function is there; it reports an error exactly when the
    clipboard refused, and then deletes nothing; copy never changes a
    cell. *)
Theorem cut_deletes_iff_copied {L : Lodash}
    (ctx : MenuContext) (clip : Clipboard) (r : option MenuRow) (c : MenuColumn) :
  (List.filter isCellChange (handleCut ctx clip r c)
   = [DeleteCell (mr_ref <$> r) (mc_key c)]
   <-> written clip = None /\ cellValue r c <> VUndefined /\ deleteCell ctx = true)
  /\ (List.filter isCellChange (handleCut ctx clip r c) = []
      <-> ~ (written clip = None /\ cellValue r c <> VUndefined
             /\ deleteCell ctx = true))
  /\ (forall error, written clip = Some error ->
        List.filter isSnackbar (handleCut ctx clip r c)
        = [EnqueueSnackbar ("Failed to cut: " +:+ error) "error"]
        /\ List.filter isCellChange (handleCut ctx clip r c) = [])
  /\ (written clip = None -> List.filter isSnackbar (handleCut ctx clip r c) = [])
  /\ List.filter isCellChange (handleCopy ctx clip r c) = [].
Proof.
  rewrite handleCut_changes, handleCut_snackbars.
  assert (Hdef : negb (String.eqb (typeof (cellValue r c)) "undefined") = true
                 <-> cellValue r c <> VUndefined).
  { rewrite negb_true_iff, <- typeof_undefined.
    destruct (String.eqb _ _); intuition congruence. }
  split; [|split; [|split; [|split]]].
  - destruct (written clip) as [error|].
    + split; [discriminate | intros [Hw _]; discriminate Hw].
    + destruct (negb _) eqn:Hv, (deleteCell ctx); simpl;
        intuition congruence.
  - destruct (written clip) as [error|].
    + split; [intros _ [Hw _]; discriminate Hw | reflexivity].
    + destruct (negb _) eqn:Hv, (deleteCell ctx); simpl;
        intuition congruence.
  - intros error ->. split; reflexivity.
  - intros ->. reflexivity.
  - unfold handleCopy. simpl. rewrite List.filter_app.
    rewrite (proj1 (handleClose_changes_nothing ctx)), app_nil_r.
    destruct (written clip); reflexivity.
Qed.

Lemma cut_deletes_iff_copied_witness :
  List.filter isCellChange
    (handleCut (L := Sample.lodash) MenuSample.everything
       (mkClipboard None (inl "")) (Some MenuSample.line) MenuSample.column)
  = [DeleteCell (Some (mkRef "s" "rows/s")) "name"]
  /\ List.filter isCellChange
       (handleCut (L := Sample.lodash) MenuSample.everything
          (mkClipboard (Some "NotAllowedError") (inl "")) (Some MenuSample.line)
          MenuSample.column)
     = [].
Proof.
  split.
  - apply (proj1 (cut_deletes_iff_copied (L := Sample.lodash)
                    MenuSample.everything (mkClipboard None (inl ""))
                    (Some MenuSample.line) MenuSample.column)).
    split; [reflexivity|]. split; [discriminate | reflexivity].
  - apply (proj1 (proj2 (proj2 (cut_deletes_iff_copied (L := Sample.lodash)
                    MenuSample.everything
                    (mkClipboard (Some "NotAllowedError") (inl ""))
                    (Some MenuSample.line) MenuSample.column)))
             "NotAllowedError" eq_refl).
Defined.

(** X17: paste never both updates and reports.  When the clipboard is
    read and the text parses, paste reports nothing and calls the update
    function once, with the parsed value, if one is there, and only
    closes the menu if none is; when the text does not parse, or the
    clipboard cannot be read, it reports ["Failed to paste: "] followed by
    the error, once, and updates nothing.  For a string column the parsed
    value is the text as it is; for a number column it is the number, and
    text that is not a number fails with the error
    ["Error: <text> is not a number"]. *)
Theorem paste_writes_or_reports {E : MenuEnv}
    (ctx : MenuContext) (clip : Clipboard) (r : option MenuRow) (c : MenuColumn) :
  let events := handlePaste ctx clip r c in
  (forall text parsed,
     readText clip = inl text -> parsePasted c text = inl parsed ->
     events
     = ClipboardRead
       :: (if updateCell ctx
           then [UpdateCell (mr_ref <$> r) (mc_key c) parsed] else [])
       ++ handleClose ctx)
  /\ (forall text error,
        readText clip = inl text -> parsePasted c text = inr error ->
        events
        = [ClipboardRead; EnqueueSnackbar ("Failed to paste: " +:+ error) "error"]
          ++ handleClose ctx)
  /\ (forall error,
        readText clip = inr error ->
        events
        = [ClipboardRead; EnqueueSnackbar ("Failed to paste: " +:+ error) "error"]
          ++ handleClose ctx)
  /\ (List.filter isCellChange events = [] \/ List.filter isSnackbar events = [])
  /\ (forall text, cellDataType c = Some "string" ->
                   parsePasted c text = inl (VStr text))
  /\ (forall text parsed,
        cellDataType c = Some "number" -> toNumber text = Some parsed ->
        parsePasted c text = inl parsed)
  /\ (forall text,
        cellDataType c = Some "number" -> toNumber text = None ->
        parsePasted c text = inr ("Error: " +:+ text +:+ " is not a number")).
Proof.
  intros events. unfold events.
  split; [|split; [|split; [|split; [|split; [|split]]]]].
  - intros text parsed Hread Hparse. unfold handlePaste.
    rewrite Hread, Hparse. destruct (updateCell ctx); reflexivity.
  - intros text error Hread Hparse. unfold handlePaste.
    rewrite Hread, Hparse. reflexivity.
  - intros error Hread. unfold handlePaste. rewrite Hread. reflexivity.
  - rewrite handlePaste_changes, handlePaste_snackbars.
    destruct (readText clip) as [text|]; [|left; reflexivity].
    destruct (parsePasted c text); [right | left]; reflexivity.
  - intros text Htype. unfold parsePasted. rewrite Htype. reflexivity.
  - intros text parsed Htype Hnum. unfold parsePasted. rewrite Htype, Hnum.
    reflexivity.
  - intros text Htype Hnan. unfold parsePasted. rewrite Htype, Hnan.
    reflexivity.
Qed.

Lemma paste_writes_or_reports_witness :
  handlePaste (E := MenuSample.env) MenuSample.everything
    (mkClipboard None (inl "Cy")) (Some MenuSample.line) MenuSample.column
  = [ClipboardRead; UpdateCell (Some (mkRef "s" "rows/s")) "name" (VStr "Cy");
     ResetMenu]
  /\ handlePaste (E := MenuSample.env) (mkMenuContext true false true)
       (mkClipboard None (inl "Cy")) (Some MenuSample.line) MenuSample.column
     = [ClipboardRead; ResetMenu]
  /\ handlePaste (E := MenuSample.env) MenuSample.everything
       (mkClipboard None (inl "Cy")) (Some MenuSample.line) MenuSample.counter
     = [ClipboardRead;
        EnqueueSnackbar "Failed to paste: Error: Cy is not a number" "error";
        ResetMenu].
Proof.
  split; [|split].
  - destruct (paste_writes_or_reports (E := MenuSample.env) MenuSample.everything
                (mkClipboard None (inl "Cy")) (Some MenuSample.line)
                MenuSample.column) as [Hok [_ [_ [_ [Hstring _]]]]].
    exact (Hok "Cy" (VStr "Cy") eq_refl (Hstring "Cy" eq_refl)).
  - destruct (paste_writes_or_reports (E := MenuSample.env)
                (mkMenuContext true false true)
                (mkClipboard None (inl "Cy")) (Some MenuSample.line)
                MenuSample.column) as [Hok [_ [_ [_ [Hstring _]]]]].
    exact (Hok "Cy" (VStr "Cy") eq_refl (Hstring "Cy" eq_refl)).
  - destruct (paste_writes_or_reports (E := MenuSample.env) MenuSample.everything
                (mkClipboard None (inl "Cy")) (Some MenuSample.line)
                MenuSample.counter) as [_ [Hbad [_ [_ [_ [_ Hnan]]]]]].
    exact (Hbad "Cy" _ eq_refl (Hnan "Cy" eq_refl eq_refl)).
Defined.

(** X18: with no selected row (no rows at all, or a row index past the
    end) the cell value is [undefined]: cut then deletes nothing, while
    paste still calls the update function, with no row reference. *)
Theorem menu_without_row {L : Lodash} {E : MenuEnv}
    (ctx : MenuContext) (clip : Clipboard)
    (rows : option (list MenuRow)) (rowIndex : nat) (c : MenuColumn) :
  (rows = None \/ exists rs, rows = Some rs /\ length rs <= rowIndex) ->
  selectedRow rows rowIndex = None
  /\ cellValue (selectedRow rows rowIndex) c = VUndefined
  /\ List.filter isCellChange (handleCut ctx clip (selectedRow rows rowIndex) c) = []
  /\ (forall text,
        readText clip = inl text -> cellDataType c = Some "string" ->
        updateCell ctx = true ->
        List.filter isCellChange
          (handlePaste ctx clip (selectedRow rows rowIndex) c)
        = [UpdateCell None (mc_key c) (VStr text)]).
Proof.
  intros Hrows.
  assert (Hnone : selectedRow rows rowIndex = None).
  { destruct Hrows as [->|[rs [-> Hlen]]]; [reflexivity|].
    simpl. apply lookup_ge_None. exact Hlen. }
  rewrite Hnone. split; [reflexivity|]. split; [reflexivity|]. split.
  - rewrite handleCut_changes. simpl. destruct (written clip); reflexivity.
  - intros text Hread Htype Hupd. rewrite handlePaste_changes.
    unfold parsePasted. rewrite Hread, Htype, Hupd. reflexivity.
Qed.

Lemma menu_without_row_witness :
  List.filter isCellChange
    (handleCut (L := Sample.lodash) MenuSample.everything
       (mkClipboard None (inl "Cy")) (selectedRow (Some [MenuSample.line]) 4)
       MenuSample.column) = []
  /\ List.filter isCellChange
       (handlePaste (E := MenuSample.env) MenuSample.everything
          (mkClipboard None (inl "Cy")) (selectedRow (Some [MenuSample.line]) 4)
          MenuSample.column)
     = [UpdateCell None "name" (VStr "Cy")].
Proof.
  destruct (menu_without_row (L := Sample.lodash) (E := MenuSample.env)
              MenuSample.everything (mkClipboard None (inl "Cy"))
              (Some [MenuSample.line]) 4 MenuSample.column)
    as [_ [_ [Hcut Hpaste]]].
  - right. exists [MenuSample.line]. split; [reflexivity | simpl; lia].
  - split; [exact Hcut | exact (Hpaste "Cy" eq_refl eq_refl eq_refl)].
Defined.

(** ** What [addRowAtom] reads of the database rows *)

Lemma idChain_start {U : TableUtils} (setId : option SetId) (rows : list TableRow)
    (start start' : option string) (n : nat) :
  setId <> Some decrement \/ start = start' ->
  idChain setId start n rows = idChain setId start' n rows.
Proof.
  intros [Hset | ->]; [|reflexivity].
  destruct rows as [|r rows]; [reflexivity|].
  destruct setId as [[|]|]; [reflexivity | congruence | reflexivity].
Qed.

(** X19: [addRowAtom] reads of the database rows only the id of the first
    one, and only when [setId] is ["decrement"]: with another [setId], or
    with the same first id, other database rows give the same outcome. *)
Theorem add_reads_first_id_to_decrement {U : TableUtils}
    (updateRowDb deleteRowDb bulkWriteDb auditChange : bool)
    (tableSettings : option TableSettings) (currentUser : option User)
    (tableFilters : list TableFilter) (tableColumnsOrdered : list Column)
    (tableRowsDb tableRowsDb' tableRowsLocal tableRows : list TableRow)
    (o : IAddRowOptions) :
  setId o <> Some decrement \/ firstId tableRowsDb = firstId tableRowsDb' ->
  addRowAtom
    (mkStore updateRowDb deleteRowDb bulkWriteDb auditChange tableSettings
       currentUser tableFilters tableColumnsOrdered tableRowsDb tableRowsLocal
       tableRows) o
  = addRowAtom
      (mkStore updateRowDb deleteRowDb bulkWriteDb auditChange tableSettings
         currentUser tableFilters tableColumnsOrdered tableRowsDb' tableRowsLocal
         tableRows) o.
Proof.
  intros Hsame.
  destruct updateRowDb; [|reflexivity].
  destruct tableSettings as [s|]; [|reflexivity].
  destruct currentUser as [u|]; [|reflexivity].
  rewrite (addRowAtom_run (mkStore true deleteRowDb bulkWriteDb auditChange
                             (Some s) (Some u) tableFilters tableColumnsOrdered
                             tableRowsDb tableRowsLocal tableRows)
             o s u eq_refl eq_refl eq_refl).
  rewrite (addRowAtom_run (mkStore true deleteRowDb bulkWriteDb auditChange
                             (Some s) (Some u) tableFilters tableColumnsOrdered
                             tableRowsDb' tableRowsLocal tableRows)
             o s u eq_refl eq_refl eq_refl).
  unfold processedRows. simpl.
  rewrite (idChain_start (setId o) _ (firstId tableRowsDb) (firstId tableRowsDb') 0
             Hsame).
  reflexivity.
Qed.

Lemma add_reads_first_id_to_decrement_witness :
  addRowAtom (U := Sample.utils)
    (mkStore true true true true (Some Example.settings) (Some Example.user) []
       Example.columns [Example.saved] [] [])
    (mkAddOptions (inl Example.counted) false (Some random))
  = addRowAtom (U := Sample.utils)
      (mkStore true true true true (Some Example.settings) (Some Example.user) []
         Example.columns [] [] [])
      (mkAddOptions (inl Example.counted) false (Some random)).
Proof.
  apply (add_reads_first_id_to_decrement (U := Sample.utils)).
  left. discriminate.
Defined.

(** ** The data of a bulk add *)

Lemma applyDefaults_defaultFor (columns : list Column) (iv : obj) (k : string) :
  applyDefaults columns iv !! k
  = match defaultFor columns k with
    | Some v => Some v
    | None => iv !! k
    end.
Proof.
  unfold applyDefaults. revert iv.
  induction columns as [|c columns IH]; intros iv; [reflexivity|].
  simpl. rewrite IH. destruct (defaultFor columns k); [reflexivity|].
  rewrite defaultStep_spec.
  destruct (String.eqb (col_key c) k) eqn:Hkey, (hasDefault c); simpl;
    try reflexivity.
  - apply String.eqb_eq in Hkey. subst k. apply lookup_insert_eq.
  - apply String.eqb_neq in Hkey. apply lookup_insert_ne. exact Hkey.
Qed.

(** C6: a call of [bulkAddRowsAtom] that passes its precondition reads
    makes one bulk write with one operation per row, in order: operation
    [i] is an ["add"] at the collection, ["/"] and the [i]-th generated
    id.  Its data holds, key by key, the field of [omitRowyFields] of row
    [i] when there is one; otherwise the audit value of the current user
    under the audit field names in use; otherwise the default of the last
    column with that key that sets one, and nothing when there is none.
    After the write, when an audit function is configured, one
    ["ADD_ROW"] entry is recorded per operation, in order, with the path
    of that operation, and otherwise none. *)
Theorem bulk_add_operations {U : TableUtils}
    (st : Store) (o : IBulkAddRowsOptions) (s : TableSettings) (u : User) :
  _bulkWriteDbAtom st = true ->
  tableSettingsAtom st = Some s ->
  currentUserAtom st = Some u ->
  exists operations : list BulkWriteOperation,
    bulkAddRowsAtom st o
    = finish
        (BulkWriteDb operations
         :: (if auditChangeAtom st
             then map (fun op => AuditChange ADD_ROW (op_path op) None) operations
             else []))
    /\ length operations = length (rows o)
    /\ forall (i : nat) (r : obj),
         rows o !! i = Some r ->
         exists data : obj,
           operations !! i
           = Some {| op_type := "add";
                     op_path := collection o +:+ "/" +:+ generateId i;
                     op_data := data |}
           /\ forall k : string,
                (forall v, omitRowyFields r !! k = Some v -> data !! k = Some v)
                /\ (omitRowyFields r !! k = None -> auditWrites s k ->
                    data !! k = Some (rowyUser u))
                /\ (omitRowyFields r !! k = None -> ~ auditWrites s k ->
                    data !! k = defaultFor (tableColumnsOrderedAtom st) k).
Proof.
  intros Hdb Hs Hu.
  exists (bulkOperations (bulkInitialValues (tableColumnsOrderedAtom st) s u)
            (collection o) 0 (rows o)).
  split; [|split].
  - unfold bulkAddRowsAtom. rewrite Hdb, Hs, Hu. reflexivity.
  - apply bulkOperations_length.
  - intros i r Hi. eexists. split.
    + rewrite (bulkOperations_lookup _ _ _ 0 i r Hi). reflexivity.
    + intros k. unfold spread, bulkInitialValues. split; [|split].
      * intros v Hv. apply lookup_union_Some_l. exact Hv.
      * intros Hnone [Hon Hname]. rewrite lookup_union_r by exact Hnone.
        apply auditEnabled_spec in Hon.
        destruct Hname as [-> | ->];
          [apply writeAuditFields_created | apply writeAuditFields_updated];
          exact Hon.
      * intros Hnone Hno. rewrite lookup_union_r by exact Hnone.
        rewrite writeAuditFields_frame by exact Hno.
        rewrite applyDefaults_defaultFor.
        destruct (defaultFor _ k); [reflexivity | apply lookup_empty].
Qed.

Lemma bulk_add_operations_witness :
  exists (operations : list BulkWriteOperation) (data : obj),
    bulkAddRowsAtom (U := Sample.utils) agedStore
      (mkBulkOptions [{["name" := VStr "Cy"; "_rowy_outOfOrder" := VBool true]}; ∅]
         "rows")
    = finish
        (BulkWriteDb operations
         :: map (fun op => AuditChange ADD_ROW (op_path op) None) operations)
    /\ map op_path operations = ["rows/r"; "rows/rr"]
    /\ operations !! 0 = Some (mkOperation "add" "rows/r" data)
    /\ data !! "name" = Some (VStr "Cy")
    /\ data !! "_updatedBy"
       = Some (VObj [("displayName", VStr "Ann"); ("uid", VStr "u1")])
    /\ data !! "age" = Some (VNum 3)
    /\ data !! "_rowy_outOfOrder" = None.
Proof.
  destruct (bulk_add_operations (U := Sample.utils) agedStore
              (mkBulkOptions
                 [{["name" := VStr "Cy"; "_rowy_outOfOrder" := VBool true]}; ∅]
                 "rows")
              (mkSettings None None None) (mkUser "u1" "Ann")
              eq_refl eq_refl eq_refl)
    as [operations [Hrun [Hlen Hops]]].
  destruct (Hops 0 _ eq_refl) as [data [H0 Hdata]].
  destruct (Hops 1 _ eq_refl) as [data1 [H1 _]].
  exists operations, data. split; [exact Hrun|].
  split.
  { destruct operations as [|a [|b [|c rest]]]; try discriminate Hlen.
    simpl in H0, H1. injection H0 as ->. injection H1 as ->. reflexivity. }
  split; [exact H0|].
  split; [apply (proj1 (Hdata "name")); vm_compute; reflexivity|].
  split.
  { apply (proj1 (proj2 (Hdata "_updatedBy"))); [vm_compute; reflexivity|].
    split; [reflexivity | right; reflexivity]. }
  split.
  { rewrite (proj2 (proj2 (Hdata "age"))); [reflexivity | vm_compute; reflexivity|].
    intros [_ [Hname | Hname]]; discriminate Hname. }
  rewrite (proj2 (proj2 (Hdata "_rowy_outOfOrder")));
    [reflexivity | vm_compute; reflexivity|].
  intros [_ [Hname | Hname]]; discriminate Hname.
Defined.
